(** * Journal file format and page-aligned buffer builder

    A shallow embedding of [db/dur_journalformat.h] (the records of the
    durability journal: [JHeader], [JSectHeader], [JEntry], [JSectFooter],
    [LSNFile]) and of [util/alignedbuilder.h] (the [AlignedBuilder] class),
    with the properties of the format stated and proved over it.

    Conventions.
    - A [char] is a [byte]; a [char x[n]] array is a [vec byte n].
    - A C++ [int] or [unsigned] is a [Z]; the conversions between the two
      ([int_of], [unsigned_of]) write the 32-bit wrap-around out.
    - A [little<T>] field is the [sizeof(T)] bytes it occupies in the record,
      read and written in little-endian order. *)

From Stdlib Require Import ZArith Lia List String DecimalString DecimalZ.
From coqutil Require Import Byte Word.LittleEndianList.
From stdpp Require Import base tactics option list vector.

Local Open Scope Z_scope.

(** ** Bytes and C integers *)

#[global] Instance byte_eq_dec : EqDecision byte := Byte.byte_eq_dec.

Definition char_j  : byte := Byte.x6a.   (* 'j'  *)
Definition char_nl : byte := Byte.x0a.   (* '\n' *)
Definition char_nul : byte := Byte.x00.  (* '\0' *)

(** Conversion of a value to [unsigned] (32 bits): reduction modulo 2^32. *)
Definition unsigned_of (z : Z) : Z := z mod 2 ^ 32.

(** Conversion of a value to [int] (32 bits, two's complement). *)
Definition int_of (z : Z) : Z := (z + 2 ^ 31) mod 2 ^ 32 - 2 ^ 31.

(** Conversion to [bool]: non-zero is true. *)
Definition to_bool (z : Z) : bool := negb (z =? 0).

(** ** The little-endian field type [little<T>] *)

(** Modelled from the spec: the [little<T>] / [little_pod<T>] templates (the
    FixedWidthCodec of the specification; their header is not part of the
    sources at hand).  A field of type [little<T>] holds [sizeof(T)] bytes,
    least significant byte first; reading it decodes those bytes, writing it
    encodes the value modulo 2^(8*sizeof(T)). *)
Record little (w : nat) : Type := Little { le_raw : vec byte w }.
Arguments Little {w} _.
Arguments le_raw {w} _.

Fixpoint le_vsplit (w : nat) (v : Z) : vec byte w :=
  match w with
  | O => [#]
  | S n => byte.of_Z v ::: le_vsplit n (Z.shiftr v 8)
  end.

(** The value of the field, as an unsigned number. *)
Definition little_get {w} (x : little w) : Z := le_combine (vec_to_list (le_raw x)).

(** The value of the field, as a signed (two's complement) number. *)
Definition little_get_signed {w} (x : little w) : Z :=
  let m := 2 ^ (8 * Z.of_nat w) in
  (little_get x + m / 2) mod m - m / 2.

(** Assignment of a value to the field. *)
Definition little_set {w} (v : Z) : little w := Little (le_vsplit w v).

(** The bytes the field occupies. *)
Definition little_bytes {w} (x : little w) : list byte := vec_to_list (le_raw x).

(** ** Journal records ([#pragma pack(1)]) *)

Definition reserved3_size : nat := Z.to_nat 8026.

Module JHeader.

Definition CurrentVersion : Z := 0x4147.

Record t : Type := Build {
  magic : vec byte 2;            (* "j\n" *)
  _version : little 2;           (* little<unsigned short> *)
  n1 : byte;                     (* '\n' *)
  ts : vec byte 20;              (* ascii timestamp of file generation *)
  n2 : byte;                     (* '\n' *)
  dbpath : vec byte 128;         (* path/filename of this file *)
  n3 : byte;                     (* '\n' *)
  n4 : byte;                     (* '\n' *)
  fileId : little 8;             (* little<unsigned long long> *)
  reserved3 : vec byte reserved3_size;   (* 8KB total for the file header *)
  txt2 : vec byte 2              (* "\n\n" at the end *)
}.

(** [bool versionOk() const { return _version == CurrentVersion; }] *)
Definition versionOk (h : t) : bool :=
  little_get (_version h) =? CurrentVersion.

(** [bool valid() const { return magic[0] == 'j' && txt2[1] == '\n' && fileId; }] *)
Definition valid (h : t) : bool :=
  bool_decide (magic h !!! 0%fin = char_j)
  && bool_decide (txt2 h !!! 1%fin = char_nl)
  && to_bool (little_get (fileId h)).

(** Field updates used to describe a corrupted header. *)
Definition with_magic (m : vec byte 2) (h : t) : t :=
  Build m (_version h) (n1 h) (ts h) (n2 h) (dbpath h) (n3 h) (n4 h)
        (fileId h) (reserved3 h) (txt2 h).
Definition with_version (v : little 2) (h : t) : t :=
  Build (magic h) v (n1 h) (ts h) (n2 h) (dbpath h) (n3 h) (n4 h)
        (fileId h) (reserved3 h) (txt2 h).
Definition with_fileId (f : little 8) (h : t) : t :=
  Build (magic h) (_version h) (n1 h) (ts h) (n2 h) (dbpath h) (n3 h) (n4 h)
        f (reserved3 h) (txt2 h).
Definition with_txt2 (x : vec byte 2) (h : t) : t :=
  Build (magic h) (_version h) (n1 h) (ts h) (n2 h) (dbpath h) (n3 h) (n4 h)
        (fileId h) (reserved3 h) x.

(** The bytes of the record, in declaration order and without padding. *)
Definition image (h : t) : list byte :=
  vec_to_list (magic h) ++ little_bytes (_version h) ++ [n1 h]
  ++ vec_to_list (ts h) ++ [n2 h] ++ vec_to_list (dbpath h)
  ++ [n3 h; n4 h] ++ little_bytes (fileId h)
  ++ vec_to_list (reserved3 h) ++ vec_to_list (txt2 h).

End JHeader.

(** "Section" header.  A section corresponds to a group commit. *)
Module JSectHeader.

Record t : Type := Build {
  len : little 4;         (* little<unsigned>: length in bytes of the whole section *)
  seqNumber : little 8;   (* little<unsigned long long> *)
  fileId : little 8       (* little<unsigned long long>: matches JHeader::fileId *)
}.

Definition image (h : t) : list byte :=
  little_bytes (len h) ++ little_bytes (seqNumber h) ++ little_bytes (fileId h).

(** [sizeof(JSectHeader)] under [#pragma pack(1)]: the sizes of its fields. *)
Definition sizeof : Z := 4 + 8 + 8.

End JSectHeader.

(** An individual write operation within a group commit section. *)
Module JEntry.

(* enum OpCodes *)
Definition OpCode_Footer      : Z := 0xffffffff.
Definition OpCode_DbContext   : Z := 0xfffffffe.
Definition OpCode_FileCreated : Z := 0xfffffffd.
Definition OpCode_DropDb      : Z := 0xfffffffc.
Definition OpCode_Min         : Z := 0xfffff000.

(* sentinel and masks for _fileNo *)
Definition DotNsSuffix : Z := 0x7fffffff.   (* ".ns" file *)
Definition LocalDbBit  : Z := 0x80000000.   (* assuming "local" db *)

Record t : Type := Build {
  opcode_len : little 4;  (* union { little_pod<OpCodes> opcode; little_pod<unsigned> len; } *)
  ofs : little 4;         (* little<unsigned>: offset in file *)
  _fileNo : little 4      (* little<int>: high bit set for the local database *)
}.

(** The value read from [_fileNo], an [int]. *)
Definition fileNo_value (e : t) : Z := little_get_signed (_fileNo e).

Definition with_fileNo (f : Z) (e : t) : t :=
  Build (opcode_len e) (ofs e) (little_set f).

(** [int getFileNo() const { return _fileNo & (~LocalDbBit); }]
    The enumerators do not fit an [int], so [~LocalDbBit] and the
    conjunction are computed on [unsigned]; the result is returned as
    [int]. *)
Definition getFileNo (e : t) : Z :=
  int_of (Z.land (unsigned_of (fileNo_value e)) (unsigned_of (Z.lnot LocalDbBit))).

(** [void setFileNo(int f) { _fileNo = f; }] *)
Definition setFileNo (f : Z) (e : t) : t := with_fileNo f e.

(** [bool isNsSuffix() const { return getFileNo() == DotNsSuffix; }] *)
Definition isNsSuffix (e : t) : bool :=
  unsigned_of (getFileNo e) =? DotNsSuffix.

(** [void setLocalDbContextBit() { _fileNo |= LocalDbBit; }] *)
Definition setLocalDbContextBit (e : t) : t :=
  with_fileNo (int_of (Z.lor (unsigned_of (fileNo_value e)) LocalDbBit)) e.

(** [bool isLocalDbContext() const { return _fileNo & LocalDbBit; }] *)
Definition isLocalDbContext (e : t) : bool :=
  to_bool (Z.land (unsigned_of (fileNo_value e)) LocalDbBit).

(** [void clearLocalDbContextBit() { _fileNo = getFileNo(); }] *)
Definition clearLocalDbContextBit (e : t) : t := with_fileNo (getFileNo e) e.

(** The fixed part of the record; [char data[len]] follows it. *)
Definition image (e : t) : list byte :=
  little_bytes (opcode_len e) ++ little_bytes (ofs e) ++ little_bytes (_fileNo e).

(** The offset of [_fileNo] in the record and the size of a [little<int>]. *)
Definition offsetof_fileNo : Z := 4 + 4.
Definition sizeof_fileNo : Z := 4.

(** [srcData()]: returns [&_fileNo + 1], the address just after the field,
    as a pointer to [char]; [this] is the address of the entry. *)
Definition srcData (this : Z) : Z := (this + offsetof_fileNo) + 1 * sizeof_fileNo.

(** [static string suffix(int fileno)]: "ns" for [DotNsSuffix], the number
    in decimal, as [stringstream] writes an [int], otherwise. *)
Definition suffix (fileno : Z) : string :=
  if unsigned_of fileno =? DotNsSuffix then "ns"%string
  else NilEmpty.string_of_int (Z.to_int fileno).

End JEntry.

(** ** Memory *)

(** The bytes of the address space, by address. *)
Definition memory : Type := Z -> byte.

(** The [n] bytes at [p], [p+1], ...; none when [n <= 0]. *)
Definition load_bytes (m : memory) (p n : Z) : list byte :=
  map (fun i => m (p + Z.of_nat i)) (seq 0 (Z.to_nat n)).

(** The memory after the bytes [bs] are written at [p], [p+1], ... *)
Definition store_bytes (m : memory) (p : Z) (bs : list byte) : memory :=
  fun a =>
    if (p <=? a) && (a <? p + Z.of_nat (length bs))
    then nth (Z.to_nat (a - p)) bs (m a)
    else m a.


(** [memcmp(a, b, n)]: the sign of the first difference among the first [n]
    bytes, 0 when there is none. *)
Fixpoint memcmp_list (a b : list byte) : Z :=
  match a, b with
  | x :: a', y :: b' =>
      if byte.unsigned x <? byte.unsigned y then -1
      else if byte.unsigned y <? byte.unsigned x then 1
      else memcmp_list a' b'
  | _, _ => 0
  end.

Definition memcmp (a b : list byte) (n : Z) : Z :=
  memcmp_list (take (Z.to_nat n) a) (take (Z.to_nat n) b).

(** [md5digest]: [unsigned char[16]]. *)
Definition md5digest : Type := vec byte 16.

(** Group commit section footer.  md5 is a key field. *)
Module JSectFooter.

Record t : Type := Build {
  sentinel : little 4;    (* little<unsigned> *)
  hash : md5digest;
  reserved : little 8;    (* little<unsigned long long> *)
  magic : vec byte 4      (* "\n\n\n\n" *)
}.

Definition image (f : t) : list byte :=
  little_bytes (sentinel f) ++ vec_to_list (hash f)
  ++ little_bytes (reserved f) ++ vec_to_list (magic f).

Section WithDigest.

(** The digest primitive of [util/md5.hpp], which is not part of the
    sources at hand: a function from the hashed bytes to the 16-byte
    digest. *)
Variable md5_digest : list byte -> md5digest.

(** [md5(data, nbytes, digest)]: the digest of the [nbytes] bytes at
    [data]. *)
Definition md5 (m : memory) (data nbytes : Z) : md5digest :=
  md5_digest (load_bytes m data nbytes).

(** [JSectFooter(const void* begin, int len)] *)
Definition ctor (m : memory) (begin len : Z) : t :=
  (* skip section header since size modified after hashing *)
  let begin := begin + JSectHeader.sizeof in
  let len := int_of (len - JSectHeader.sizeof) in
  {| sentinel := little_set JEntry.OpCode_Footer;
     hash := md5 m begin len;
     reserved := little_set 0;
     magic := vreplicate 4 char_nl |}.

(** [bool checkHash(const void* begin, int len) const] *)
Definition checkHash (f : t) (m : memory) (begin len : Z) : bool :=
  (* skip section header since size modified after hashing *)
  let begin := begin + JSectHeader.sizeof in
  let len := int_of (len - JSectHeader.sizeof) in
  let current := md5 m begin len in
  memcmp (vec_to_list (hash f)) (vec_to_list current) 16 =? 0.

End WithDigest.

End JSectFooter.

(** Declares "the next entry(s) are for this database / file path prefix". *)
Module JDbContext.

Record t : Type := Build {
  sentinel : little 4     (* const little<unsigned> *)
}.

(** [JDbContext() : sentinel(JEntry::OpCode_DbContext) { }] *)
Definition ctor : t := {| sentinel := little_set JEntry.OpCode_DbContext |}.

End JDbContext.

(** "Last sequence number". *)
Module LSNFile.

Record t : Type := Build {
  ver : little 4;               (* little<unsigned> *)
  reserved2 : little 4;         (* little<unsigned> *)
  lsn : little 8;               (* little<unsigned long long> *)
  checkbytes : little 8;        (* little<unsigned long long> *)
  reserved : vec (little 8) 8   (* little<unsigned long long> reserved[8] *)
}.

Definition image (f : t) : list byte :=
  little_bytes (ver f) ++ little_bytes (reserved2 f)
  ++ little_bytes (lsn f) ++ little_bytes (checkbytes f)
  ++ concat (map little_bytes (vec_to_list (reserved f))).

End LSNFile.

(** ** Record images *)

(** The [n] bytes of an image that start at offset [off]. *)
Definition slice (off n : Z) (l : list byte) : list byte :=
  take (Z.to_nat n) (drop (Z.to_nat off) l).

(** ** AlignedBuilder: a page-aligned BufBuilder *)

Module AlignedBuilder.

Definition Alignment : Z := 8192.

(** [struct AllocationInfo] *)
Record AllocationInfo : Type := {
  _data : Z;                (* char*: start of the buffer *)
  _allocationAddress : Z;   (* void*: the block the buffer lives in *)
  _size : Z                 (* unsigned: capacity *)
}.

(** What a call can throw. *)
Inductive exn : Type :=
| AssertionException    (* a failed [assert] *)
| OutOfMemory.          (* the system allocator returned no block *)

Inductive result (A : Type) : Type :=
| Ok (a : A)
| Threw (e : exn).
Arguments Ok {A} a.
Arguments Threw {A} e.

(** The values appended by [append<T>], with their type. *)
Inductive scalar : Type :=
| SChar (j : Z)
| SShort (j : Z)
| SInt (j : Z)
| SUnsigned (j : Z)
| SBool (j : bool)
| SDouble (bits : Z)      (* the 64 bits of the double *)
| SLongLong (j : Z)
| SULongLong (j : Z).

(** [sizeof(T)] *)
Definition scalar_size (x : scalar) : nat :=
  match x with
  | SChar _ | SBool _ => 1
  | SShort _ => 2
  | SInt _ | SUnsigned _ => 4
  | SDouble _ | SLongLong _ | SULongLong _ => 8
  end.

Definition scalar_value (x : scalar) : Z :=
  match x with
  | SChar j | SShort j | SInt j | SUnsigned j | SLongLong j | SULongLong j => j
  | SBool j => if j then 1 else 0
  | SDouble bits => bits
  end.

(** Modelled from the spec: [StringData], of [bson/stringdata.h], which is
    not part of the sources at hand: the characters of a string; [size()]
    is their number and [data()] points to them, followed by a NUL. *)
Definition StringData : Type := list byte.
Definition StringData_size (str : StringData) : Z := Z.of_nat (length str).
Definition StringData_data (str : StringData) : list byte := str ++ [char_nul].

(** Rounding of an address up to the next multiple of [Alignment]. *)
Definition align_up (a : Z) : Z := (a + Alignment - 1) / Alignment * Alignment.

Section WithEnvironment.

(** The system allocator: its state, [malloc] (the address of a block of
    the requested size, or no block) and [free]. *)
Context {heap : Type}.
Variable sys_malloc : heap -> Z -> option (Z * heap).
Variable sys_free : heap -> Z -> heap.

(** [BSONObjMaxUserSize], a constant of the BSON headers. *)
Variable BSONObjMaxUserSize : Z.

(** The growth policy of [growReallocate]: the new capacity, from the
    current capacity and the length in use that has to fit. *)
Variable new_capacity : Z -> Z -> Z.

(** A builder, with the allocator and the memory it works on. *)
Record t : Type := Build {
  the_heap : heap;
  the_memory : memory;
  _p : AllocationInfo;
  _len : Z                (* unsigned: bytes in use *)
}.

Definition with_heap (h : heap) (s : t) : t :=
  Build h (the_memory s) (_p s) (_len s).
Definition with_memory (m : memory) (s : t) : t :=
  Build (the_heap s) m (_p s) (_len s).
Definition with_p (p : AllocationInfo) (s : t) : t :=
  Build (the_heap s) (the_memory s) p (_len s).
Definition with_len (l : Z) (s : t) : t :=
  Build (the_heap s) (the_memory s) (_p s) l.

(** Member functions: state passing, with exceptions.  The state reached
    when an exception is thrown is kept, as the object outlives it. *)
Definition M (A : Type) : Type := t -> result A * t.

#[local] Instance M_ret : MRet M := fun A a s => (Ok a, s).
#[local] Instance M_bind : MBind M := fun A B k c s =>
  match c s with
  | (Ok a, s') => k a s'
  | (Threw e, s') => (Threw e, s')
  end.

Definition throw {A} (e : exn) : M A := fun s => (Threw e, s).
Definition gets {A} (f : t -> A) : M A := fun s => (Ok (f s), s).
Definition modify (f : t -> t) : M unit := fun s => (Ok tt, f s).

(** Modelled from the spec: the [assert] macro of the utility headers, which
    are not part of the sources at hand: the operation "fails" when the
    condition is false, here by throwing. *)
Definition assert (c : bool) : M unit :=
  if c then mret tt else throw AssertionException.

(** [memcpy(dst, src, n)] between two places of the memory. *)
Definition memcpy (dst src n : Z) : M unit :=
  modify (fun s =>
    with_memory (store_bytes (the_memory s) dst (load_bytes (the_memory s) src n)) s).

(** [memcpy(dst, src, n)] from the bytes [src] of the caller. *)
Definition memcpy_from (dst : Z) (src : list byte) : M unit :=
  modify (fun s => with_memory (store_bytes (the_memory s) dst src) s).

(** Modelled from the spec: [mallocSelfAligned] / [_malloc], declared in
    the class and defined in [alignedbuilder.cpp], which is not part of
    the sources at hand.  "Allocate a new page-aligned region": a block
    with room for [sz] bytes after rounding is obtained from the system
    allocator, and the buffer starts at the first page boundary in it.
    No block is an AllocationFailure, fatal for the operation. *)
Definition _malloc (sz : Z) : M unit :=
  h ← gets the_heap;
  match sys_malloc h (sz + Alignment - 1) with
  | None => throw OutOfMemory
  | Some (p, h') =>
      modify (fun s =>
        with_heap h'
          (with_p {| _data := align_up p; _allocationAddress := p; _size := sz |} s))
  end.

(** Modelled from the spec: [_free], defined in [alignedbuilder.cpp]. *)
Definition _free (p : Z) : M unit :=
  modify (fun s => with_heap (sys_free (the_heap s) p) s).

(** Modelled from the spec: [_realloc], defined in [alignedbuilder.cpp].
    "Allocate a new page-aligned region ..., copy existing in-use bytes,
    free the old region." *)
Definition _realloc (newSize oldLenInUse : Z) : M unit :=
  old ← gets _p;
  _malloc newSize;;
  p ← gets _p;
  memcpy (_data p) (_data old) oldLenInUse;;
  _free (_allocationAddress old).

(** Modelled from the spec: [growReallocate], defined in
    [alignedbuilder.cpp].  "On any operation that would exceed capacity,
    allocate a new page-aligned region at least as large as the new
    length"; the growth policy is left open. *)
Definition growReallocate (oldLenInUse : Z) : M unit :=
  size ← gets (fun s => _size (_p s));
  len ← gets _len;
  _realloc (unsigned_of (new_capacity size len)) oldLenInUse.

(** Modelled from the spec: the constructor [AlignedBuilder(unsigned
    init_size)], defined in [alignedbuilder.cpp]: an empty builder over
    a fresh page-aligned region of [init_size] bytes. *)
Definition ctor (h : heap) (m : memory) (init_size : Z) : result unit * t :=
  (modify (with_len 0);; _malloc (unsigned_of init_size))
    (Build h m {| _data := 0; _allocationAddress := 0; _size := 0 |} 0).

(** [inline char* grow(unsigned by)]: returns the pre-grow write position. *)
Definition grow (by_ : Z) : M Z :=
  oldlen ← gets _len;
  modify (fun s => with_len (unsigned_of (_len s + by_)) s);;
  len ← gets _len;
  size ← gets (fun s => _size (_p s));
  (if size <? len then growReallocate oldlen else mret tt);;
  data ← gets (fun s => _data (_p s));
  mret (data + oldlen).

(** Modelled from the spec: [copyLE], of the headers of [little<T>], which
    are not part of the sources at hand: the little-endian store of the
    FixedWidthCodec, [sizeof(T)] bytes at [dst], least significant first. *)
Definition copyLE (dst : Z) (j : scalar) : M unit :=
  memcpy_from dst (le_split (scalar_size j) (scalar_value j)).

(** [template<class T> void append(T j) { copyLE( grow( sizeof(T) ), j ); }] *)
Definition append (j : scalar) : M unit :=
  dst ← grow (Z.of_nat (scalar_size j));
  copyLE dst j.

(** [const unsigned sizeCap = 128*1024*1024;] *)
Definition sizeCap : Z := 128 * 1024 * 1024.

(** [void reset()]: reset for a re-use. shrinks if > 128MB *)
Definition reset : M unit :=
  modify (with_len 0);;
  size ← gets (fun s => _size (_p s));
  if sizeCap <? size
  then len ← gets _len; _realloc sizeCap len
  else mret tt.

(** [const char* buf() const { return _p._data; }] *)
Definition buf : M Z := gets (fun s => _data (_p s)).

(** [unsigned len() const { return _len; }] *)
Definition len : M Z := gets _len.

(** [size_t skip(unsigned n)]: leave room for some stuff later. *)
Definition skip (n : Z) : M Z :=
  l ← len;
  grow n;;
  mret l.

(** [char* atOfs(unsigned ofs) { return _p._data + ofs; }] *)
Definition atOfs (ofs : Z) : M Z := gets (fun s => _data (_p s) + ofs).

Definition appendChar (j : Z) : M unit := append (SChar j).
Definition appendNum (j : scalar) : M unit := append j.

(** [void appendBuf(const void *src, size_t len)
       { memcpy(grow((unsigned) len), src, len); }]
    with [src] the [len] bytes at the source. *)
Definition appendBuf (src : list byte) : M unit :=
  dst ← grow (unsigned_of (Z.of_nat (length src)));
  memcpy_from dst src.

(** [template<class T> void appendStruct(const T& s)], with [s] given
    by its bytes. *)
Definition appendStruct (image : list byte) : M unit := appendBuf image.

(** [void appendStr(const StringData &str, bool includeEOO = true)] *)
Definition appendStr (str : StringData) (includeEOO : bool) : M unit :=
  let len := unsigned_of (StringData_size str + (if includeEOO then 1 else 0)) in
  assert (len <? unsigned_of BSONObjMaxUserSize);;
  dst ← grow len;
  memcpy_from dst (take (Z.to_nat len) (StringData_data str)).

(** The calls a user of the class can make. *)
Inductive call : Type :=
| Reset
| Buf
| Skip (n : Z)
| AtOfs (ofs : Z)
| AppendChar (j : Z)
| AppendNum (j : scalar)
| AppendBuf (src : list byte)
| AppendStruct (image : list byte)
| AppendStr (str : StringData) (includeEOO : bool)
| Len.

(** The state after a call, whether it returned or threw. *)
Definition after (c : call) (s : t) : t :=
  match c with
  | Reset => snd (reset s)
  | Buf => snd (buf s)
  | Skip n => snd (skip (unsigned_of n) s)
  | AtOfs ofs => snd (atOfs ofs s)
  | AppendChar j => snd (appendChar j s)
  | AppendNum j => snd (appendNum j s)
  | AppendBuf src => snd (appendBuf src s)
  | AppendStruct image => snd (appendStruct image s)
  | AppendStr str includeEOO => snd (appendStr str includeEOO s)
  | Len => snd (len s)
  end.

(** The state after a sequence of calls. *)
Definition after_all (cs : list call) (s : t) : t :=
  fold_left (fun s c => after c s) cs s.

(** The buffer starts on a page boundary. *)
Definition aligned (s : t) : Prop := _data (_p s) mod Alignment = 0.

(** [P] holds after a member function, returning or throwing, when it
    held before. *)
Definition preserves {A} (P : t -> Prop) (c : M A) : Prop :=
  forall s, P s -> P (snd (c s)).

(** The bytes in use. *)
Definition contents (s : t) : list byte :=
  load_bytes (the_memory s) (_data (_p s)) (_len s).

(** The state after [bs] is put at the end of the bytes in use, in place. *)
Definition put_at_end (bs : list byte) (s : t) : t :=
  with_memory (store_bytes (the_memory s) (_data (_p s) + _len s) bs)
    (with_len (_len s + Z.of_nat (length bs)) s).

(** Every call of a sequence of [appendBuf] calls returns. *)
Fixpoint appendBuf_all_return (bufs : list (list byte)) (s : t) : Prop :=
  match bufs with
  | [] => True
  | b :: bufs' =>
      fst (appendBuf b s) = Ok tt /\ appendBuf_all_return bufs' (snd (appendBuf b s))
  end.

End WithEnvironment.

Arguments t : clear implicits.
Arguments M : clear implicits.

End AlignedBuilder.

(** ** The MD5 digest *)

(** Modelled from the spec: the content-hash primitive [md5] of
    [util/md5.hpp], which is not part of the sources at hand.  The digest is
    MD5 (RFC 1321), as the name of the primitive and the 16-byte
    [md5digest] say.  The properties of [JSectFooter] are proved for any
    digest function; this one runs them on concrete sections. *)
Module MD5.

Definition K : list Z :=
  [ 0xd76aa478; 0xe8c7b756; 0x242070db; 0xc1bdceee;
    0xf57c0faf; 0x4787c62a; 0xa8304613; 0xfd469501;
    0x698098d8; 0x8b44f7af; 0xffff5bb1; 0x895cd7be;
    0x6b901122; 0xfd987193; 0xa679438e; 0x49b40821;
    0xf61e2562; 0xc040b340; 0x265e5a51; 0xe9b6c7aa;
    0xd62f105d; 0x02441453; 0xd8a1e681; 0xe7d3fbc8;
    0x21e1cde6; 0xc33707d6; 0xf4d50d87; 0x455a14ed;
    0xa9e3e905; 0xfcefa3f8; 0x676f02d9; 0x8d2a4c8a;
    0xfffa3942; 0x8771f681; 0x6d9d6122; 0xfde5380c;
    0xa4beea44; 0x4bdecfa9; 0xf6bb4b60; 0xbebfbc70;
    0x289b7ec6; 0xeaa127fa; 0xd4ef3085; 0x04881d05;
    0xd9d4d039; 0xe6db99e5; 0x1fa27cf8; 0xc4ac5665;
    0xf4292244; 0x432aff97; 0xab9423a7; 0xfc93a039;
    0x655b59c3; 0x8f0ccc92; 0xffeff47d; 0x85845dd1;
    0x6fa87e4f; 0xfe2ce6e0; 0xa3014314; 0x4e0811a1;
    0xf7537e82; 0xbd3af235; 0x2ad7d2bb; 0xeb86d391 ].

Definition shifts : list Z :=
  [ 7; 12; 17; 22; 7; 12; 17; 22; 7; 12; 17; 22; 7; 12; 17; 22;
    5;  9; 14; 20; 5;  9; 14; 20; 5;  9; 14; 20; 5;  9; 14; 20;
    4; 11; 16; 23; 4; 11; 16; 23; 4; 11; 16; 23; 4; 11; 16; 23;
    6; 10; 15; 21; 6; 10; 15; 21; 6; 10; 15; 21; 6; 10; 15; 21 ].

(** Arithmetic on 32-bit words; [Z.land _ 0xffffffff] keeps the low 32
    bits. *)
Definition add32 (a b : Z) : Z := Z.land (a + b) 0xffffffff.
Definition not32 (a : Z) : Z := Z.lxor a 0xffffffff.
Definition rotl32 (a c : Z) : Z :=
  Z.lor (Z.land (Z.shiftl a c) 0xffffffff) (Z.shiftr a (32 - c)).

(** The auxiliary function of step [i] and the index of the message word
    it uses. *)
Definition mix (i : nat) (b c d : Z) : Z * nat :=
  match (i / 16)%nat with
  | 0%nat => (Z.lor (Z.land b c) (Z.land (not32 b) d), i)
  | 1%nat => (Z.lor (Z.land d b) (Z.land (not32 d) c), ((5 * i + 1) mod 16)%nat)
  | 2%nat => (Z.lxor b (Z.lxor c d), ((3 * i + 5) mod 16)%nat)
  | _ => (Z.lxor c (Z.lor b (not32 d)), ((7 * i) mod 16)%nat)
  end.

Definition state : Type := Z * Z * Z * Z.

Definition step (words : list Z) (st : state) (i : nat) : state :=
  let '(a, b, c, d) := st in
  let '(f, g) := mix i b c d in
  let f := add32 (add32 (add32 f a) (nth i K 0)) (nth g words 0) in
  (d, add32 b (rotl32 f (nth i shifts 0)), b, c).

(** The sixteen little-endian words of a 64-byte block. *)
Definition words_of (block : list byte) : list Z :=
  map (fun k => le_combine (take 4 (drop (4 * k) block))) (seq 0 16).

Definition process (st : state) (block : list byte) : state :=
  let '(a0, b0, c0, d0) := st in
  let '(a, b, c, d) := fold_left (step (words_of block)) (seq 0 64) st in
  (add32 a0 a, add32 b0 b, add32 c0 c, add32 d0 d).

(** Padding: a 1 bit, zeros up to 56 modulo 64, the length in bits. *)
Definition pad (msg : list byte) : list byte :=
  msg ++ [Byte.x80]
      ++ replicate ((119 - length msg mod 64) mod 64)%nat Byte.x00
      ++ le_split 8 (8 * Z.of_nat (length msg)).

Fixpoint blocks (n : nat) (l : list byte) : list (list byte) :=
  match n with
  | O => []
  | S n' => take 64 l :: blocks n' (drop 64 l)
  end.

Definition init : state := (0x67452301, 0xefcdab89, 0x98badcfe, 0x10325476).

Fixpoint bytes_to_vec (n : nat) (l : list byte) : vec byte n :=
  match n with
  | O => [#]
  | S n' => hd Byte.x00 l ::: bytes_to_vec n' (tl l)
  end.

Definition digest (msg : list byte) : md5digest :=
  let padded := pad msg in
  let '(a, b, c, d) :=
    fold_left process (blocks (length padded / 64) padded) init in
  bytes_to_vec 16 (le_split 4 a ++ le_split 4 b ++ le_split 4 c ++ le_split 4 d).

End MD5.

(** ** Single-byte corruption *)


(** ** Concrete instances *)

(** A well-formed journal file header: fileId 1234, current version. *)
Definition example_header : JHeader.t :=
  {| JHeader.magic := [# char_j; char_nl];
     JHeader._version := little_set JHeader.CurrentVersion;
     JHeader.n1 := char_nl;
     JHeader.ts := vreplicate 20 Byte.x30;
     JHeader.n2 := char_nl;
     JHeader.dbpath := vreplicate 128 char_nul;
     JHeader.n3 := char_nl;
     JHeader.n4 := char_nl;
     JHeader.fileId := little_set 1234;
     JHeader.reserved3 := vreplicate reserved3_size char_nul;
     JHeader.txt2 := [# char_nl; char_nl] |}.

(** A section as in scenario B of the specification: the section header,
    one data entry (fileNo 3, offset 0, 5 bytes of data) and its data
    "hello". *)
Definition example_section : list byte :=
  JSectHeader.image
    {| JSectHeader.len := little_set 0;
       JSectHeader.seqNumber := little_set 1;
       JSectHeader.fileId := little_set 1234 |}
  ++ JEntry.image
       (JEntry.setFileNo 3
          {| JEntry.opcode_len := little_set 5;
             JEntry.ofs := little_set 0;
             JEntry._fileNo := little_set 0 |})
  ++ [Byte.x68; Byte.x65; Byte.x6c; Byte.x6c; Byte.x6f].

(** A memory that holds the section at address 4096. *)
Definition example_memory : memory :=
  store_bytes (fun _ => Byte.x00) 4096 example_section.


(** The digest of the hashed bytes of [example_section], offsets 20 to 37,
    as MD5 gives it: 26fe97cd acf4f38b 73c228aa 9adfd22c. *)
Definition example_digest : md5digest :=
  [# Byte.x26; Byte.xfe; Byte.x97; Byte.xcd; Byte.xac; Byte.xf4; Byte.xf3; Byte.x8b;
     Byte.x73; Byte.xc2; Byte.x28; Byte.xaa; Byte.x9a; Byte.xdf; Byte.xd2; Byte.x2c].

(** A system allocator that hands out consecutive blocks and never runs
    out: its state is the next free address. *)
Definition bump_malloc (h : Z) (n : Z) : option (Z * Z) := Some (h, h + n).
Definition bump_free (h : Z) (p : Z) : Z := h.

(** A doubling growth policy. *)
Definition double_capacity (size len : Z) : Z := Z.max (2 * size) len.

(** A builder of 16 bytes on the bump allocator, whose first free address,
    4097, is not a multiple of the page size. *)
Definition example_builder : AlignedBuilder.t Z :=
  snd (AlignedBuilder.ctor bump_malloc 4097 (fun _ => Byte.x00) 16).


(** * Properties *)

(** ** The little-endian codec *)

Lemma vec_to_list_le_vsplit (w : nat) (v : Z) :
  vec_to_list (le_vsplit w v) = le_split w v.
Proof.
  revert v; induction w as [|w IH]; intros v; simpl; [reflexivity|].
  by rewrite IH.
Qed.

Lemma little_bytes_length {w} (x : little w) : length (little_bytes x) = w.
Proof. apply length_vec_to_list. Qed.

Lemma little_get_range {w} (x : little w) :
  0 <= little_get x < 2 ^ (8 * Z.of_nat w).
Proof.
  unfold little_get.
  pose proof (le_combine_bound (vec_to_list (le_raw x))) as H.
  rewrite length_vec_to_list in H. exact H.
Qed.

Lemma little_get_set (w : nat) (v : Z) :
  little_get (little_set v : little w) = v mod 2 ^ (8 * Z.of_nat w).
Proof.
  unfold little_get, little_set; simpl.
  rewrite vec_to_list_le_vsplit, le_combine_split.
  f_equal. f_equal. lia.
Qed.

Lemma little_set_get {w} (x : little w) : little_set (little_get x) = x.
Proof.
  destruct x as [r]. unfold little_set, little_get; simpl. f_equal.
  apply vec_to_list_inj2. rewrite vec_to_list_le_vsplit.
  rewrite <- (length_vec_to_list r) at 1. apply split_le_combine.
Qed.

Lemma little_get_inj {w} (x y : little w) : little_get x = little_get y -> x = y.
Proof.
  intros H. rewrite <- (little_set_get x), <- (little_set_get y). by rewrite H.
Qed.

Lemma little_get_bytes {w} (x : little w) : le_combine (little_bytes x) = little_get x.
Proof. reflexivity. Qed.

(** ** 32-bit conversions *)

Lemma unsigned_of_range z : 0 <= unsigned_of z < 2 ^ 32.
Proof. unfold unsigned_of. apply Z.mod_pos_bound. reflexivity. Qed.

Lemma int_of_range z : - 2 ^ 31 <= int_of z < 2 ^ 31.
Proof.
  unfold int_of. pose proof (Z.mod_pos_bound (z + 2 ^ 31) (2 ^ 32) eq_refl). lia.
Qed.

Lemma int_of_small z : - 2 ^ 31 <= z < 2 ^ 31 -> int_of z = z.
Proof. intros H. unfold int_of. rewrite Z.mod_small; lia. Qed.

Lemma unsigned_of_small z : 0 <= z < 2 ^ 32 -> unsigned_of z = z.
Proof. intros H. unfold unsigned_of. by rewrite Z.mod_small. Qed.

Lemma unsigned_of_int_of z : unsigned_of (int_of z) = unsigned_of z.
Proof.
  unfold unsigned_of, int_of.
  change (2 ^ 32) with 4294967296. change (2 ^ 31) with 2147483648.
  Z.div_mod_to_equations. lia.
Qed.

(** ** JHeader *)

Section JHeaderFacts.
Import JHeader.

Lemma valid_iff (h : t) :
  valid h = true <->
  magic h !!! 0%fin = char_j /\ txt2 h !!! 1%fin = char_nl
  /\ little_get (fileId h) <> 0.
Proof.
  unfold valid, to_bool.
  rewrite !andb_true_iff, !bool_decide_eq_true, negb_true_iff, Z.eqb_neq.
  tauto.
Qed.

Lemma valid_with_version (v : little 2) (h : t) :
  valid (with_version v h) = valid h.
Proof. reflexivity. Qed.

Lemma versionOk_iff (h : t) :
  versionOk h = true <-> little_get (_version h) = CurrentVersion.
Proof. unfold versionOk. apply Z.eqb_eq. Qed.

Lemma little_corrupt_ne {w} (x : little w) (i : fin w) (b : byte) :
  b <> le_raw x !!! i ->
  little_get (Little (vinsert i b (le_raw x))) <> little_get x.
Proof.
  intros Hb Heq. apply little_get_inj in Heq.
  apply Hb. rewrite <- Heq. simpl. by rewrite vlookup_insert.
Qed.

Lemma lxor_pow2_ne (v k : Z) : 0 <= k -> Z.lxor v (2 ^ k) <> v.
Proof.
  intros Hk Heq.
  assert (Hbit : Z.testbit (Z.lxor v (2 ^ k)) k = Z.testbit v k) by (by rewrite Heq).
  rewrite Z.lxor_spec, Z.pow2_bits_true in Hbit by lia.
  by destruct (Z.testbit v k).
Qed.

Lemma lxor_pow2_range (v k n : Z) :
  0 <= k < n -> 0 <= v < 2 ^ n -> 0 <= Z.lxor v (2 ^ k) < 2 ^ n.
Proof.
  intros Hk Hv.
  assert (H0 : 0 <= Z.lxor v (2 ^ k)).
  { apply Z.lxor_nonneg. split; intros; [apply Z.pow_nonneg|]; lia. }
  split; [exact H0|].
  destruct (Z.eq_dec (Z.lxor v (2 ^ k)) 0) as [->|Hne]; [apply Z.pow_pos_nonneg; lia|].
  apply Z.log2_lt_pow2; [lia|].
  eapply Z.le_lt_trans; [apply Z.log2_lxor; [lia|apply Z.pow_nonneg; lia]|].
  rewrite Z.log2_pow2 by lia.
  destruct (Z.eq_dec v 0) as [->|Hv0].
  - simpl. lia.
  - apply Z.max_lub_lt; [|lia]. apply Z.log2_lt_pow2; lia.
Qed.

End JHeaderFacts.

(** C2 (as amended): a header whose first magic byte is 'j', whose closing
    trailer byte is a line feed and whose fileId is not zero is valid;
    from a valid header, replacing the first magic byte or the closing
    trailer byte by any other value, or setting fileId to zero, gives an
    invalid header; the second magic byte, the first trailer byte and the
    version field are not examined by [valid()]. *)
Theorem JHeader_valid_spec (h : JHeader.t) :
  (JHeader.magic h !!! 0%fin = char_j ->
   JHeader.txt2 h !!! 1%fin = char_nl ->
   little_get (JHeader.fileId h) <> 0 ->
   JHeader.valid h = true)
  /\ (JHeader.valid h = true ->
      (forall b, b <> JHeader.magic h !!! 0%fin ->
         JHeader.valid (JHeader.with_magic (vinsert 0%fin b (JHeader.magic h)) h) = false)
      /\ (forall b, b <> JHeader.txt2 h !!! 1%fin ->
         JHeader.valid (JHeader.with_txt2 (vinsert 1%fin b (JHeader.txt2 h)) h) = false)
      /\ JHeader.valid (JHeader.with_fileId (little_set 0) h) = false)
  /\ (forall b, JHeader.valid (JHeader.with_magic (vinsert 1%fin b (JHeader.magic h)) h)
                = JHeader.valid h)
  /\ (forall b, JHeader.valid (JHeader.with_txt2 (vinsert 0%fin b (JHeader.txt2 h)) h)
                = JHeader.valid h)
  /\ (forall v, JHeader.valid (JHeader.with_version v h) = JHeader.valid h).
Proof.
  split; [|split; [|split; [|split]]].
  - intros Hm Ht Hf. apply valid_iff. auto.
  - intros Hv. apply valid_iff in Hv as (Hm & Ht & Hf).
    split; [|split].
    + intros b Hb. apply not_true_is_false. intros Hv'.
      apply valid_iff in Hv' as (Hm' & _).
      unfold JHeader.with_magic in Hm'; cbn [JHeader.magic] in Hm'.
      rewrite vlookup_insert in Hm'. congruence.
    + intros b Hb. apply not_true_is_false. intros Hv'.
      apply valid_iff in Hv' as (_ & Ht' & _).
      unfold JHeader.with_txt2 in Ht'; cbn [JHeader.txt2] in Ht'.
      rewrite vlookup_insert in Ht'. congruence.
    + apply not_true_is_false. intros Hv'.
      apply valid_iff in Hv' as (_ & _ & Hf').
      unfold JHeader.with_fileId in Hf'; cbn [JHeader.fileId] in Hf'.
      by rewrite little_get_set in Hf'.
  - intros b. unfold JHeader.valid, JHeader.with_magic.
    cbn [JHeader.magic JHeader.txt2 JHeader.fileId].
    by rewrite vlookup_insert_ne.
  - intros b. unfold JHeader.valid, JHeader.with_txt2.
    cbn [JHeader.magic JHeader.txt2 JHeader.fileId].
    by rewrite vlookup_insert_ne.
  - intros v. apply valid_with_version.
Qed.

Lemma JHeader_valid_spec_witness :
  JHeader.valid example_header = true
  /\ JHeader.valid (JHeader.with_magic (vinsert 0%fin Byte.x4a (JHeader.magic example_header))
                      example_header) = false.
Proof.
  destruct (JHeader_valid_spec example_header) as (Hok & Hbad & _).
  assert (Hv : JHeader.valid example_header = true).
  { apply Hok; [reflexivity | reflexivity | vm_compute; discriminate]. }
  split; [exact Hv|].
  destruct (Hbad Hv) as (Hm & _). apply Hm. vm_compute. discriminate.
Defined.

(** C2 (as stated) fails: corrupting the second byte of the 2-byte magic of
    a valid header leaves [valid()] true. *)
Lemma JHeader_valid_magic1_counterexample :
  JHeader.valid example_header = true
  /\ JHeader.magic example_header !!! 1%fin = char_nl
  /\ Byte.x58 <> char_nl
  /\ JHeader.valid (JHeader.with_magic (vinsert 1%fin Byte.x58 (JHeader.magic example_header))
                      example_header) = true.
Proof. repeat split; discriminate. Qed.

(** C3: [versionOk()] is true exactly when the stored version equals
    [CurrentVersion] = 0x4147; in a valid header with the current version,
    replacing one byte of [_version] by another value, or flipping one of
    its 16 bits, makes [versionOk()] false and leaves [valid()] true. *)
Theorem JHeader_versionOk_spec (h : JHeader.t) :
  JHeader.CurrentVersion = 0x4147
  /\ (JHeader.versionOk h = true <-> little_get (JHeader._version h) = JHeader.CurrentVersion)
  /\ (JHeader.valid h = true -> JHeader.versionOk h = true ->
      (forall (i : fin 2) (b : byte),
         b <> le_raw (JHeader._version h) !!! i ->
         let h' := JHeader.with_version (Little (vinsert i b (le_raw (JHeader._version h)))) h in
         JHeader.versionOk h' = false /\ JHeader.valid h' = true)
      /\ (forall k : Z, 0 <= k < 16 ->
         let v' := Z.lxor (little_get (JHeader._version h)) (2 ^ k) in
         let h' := JHeader.with_version (little_set v') h in
         little_get (JHeader._version h') = v'
         /\ JHeader.versionOk h' = false /\ JHeader.valid h' = true)).
Proof.
  split; [reflexivity|]. split; [apply versionOk_iff|].
  intros Hv Hok. apply versionOk_iff in Hok. split.
  - intros i b Hb h'. split; [|exact Hv].
    apply not_true_is_false. intros Hok'. apply versionOk_iff in Hok'.
    subst h'. unfold JHeader.with_version in Hok'; cbn [JHeader._version] in Hok'.
    apply (little_corrupt_ne (JHeader._version h) i b Hb). congruence.
  - intros k Hk v' h'.
    assert (Hget : little_get (JHeader._version h') = v').
    { subst h'. unfold JHeader.with_version; cbn [JHeader._version].
      rewrite little_get_set. apply Z.mod_small.
      apply (lxor_pow2_range _ k 16); [lia|].
      apply (little_get_range (JHeader._version h)). }
    split; [exact Hget|]. split; [|exact Hv].
    apply not_true_is_false. intros Hok'. apply versionOk_iff in Hok'.
    rewrite Hget in Hok'. subst v'. rewrite Hok in Hok'.
    by apply (lxor_pow2_ne JHeader.CurrentVersion k); [lia|].
Qed.

Lemma JHeader_versionOk_spec_witness :
  JHeader.valid example_header = true
  /\ JHeader.versionOk example_header = true
  /\ JHeader.versionOk
       (JHeader.with_version
          (Little (vinsert 0%fin Byte.x00 (le_raw (JHeader._version example_header))))
          example_header) = false.
Proof.
  destruct (JHeader_versionOk_spec example_header) as (_ & _ & H).
  assert (Hv : JHeader.valid example_header = true) by reflexivity.
  assert (Hok : JHeader.versionOk example_header = true) by reflexivity.
  split; [exact Hv|]. split; [exact Hok|].
  destruct (H Hv Hok) as (Hbyte & _).
  apply (Hbyte 0%fin Byte.x00). vm_compute. discriminate.
Defined.

(** ** JEntry *)

Section JEntryFacts.
Import JEntry.

Lemma unsigned_of_lnot_LocalDbBit : unsigned_of (Z.lnot LocalDbBit) = Z.ones 31.
Proof. reflexivity. Qed.

Lemma unsigned_of_fileNo_value (e : t) :
  unsigned_of (fileNo_value e) = little_get (_fileNo e).
Proof.
  unfold fileNo_value, little_get_signed, unsigned_of.
  pose proof (little_get_range (_fileNo e)) as H.
  change (2 ^ (8 * Z.of_nat 4)) with 4294967296 in *.
  change (2 ^ 32) with 4294967296.
  change (4294967296 / 2) with 2147483648.
  Z.div_mod_to_equations. lia.
Qed.

(** [getFileNo()] is the low 31 bits of the stored field. *)
Lemma getFileNo_low31 (e : t) :
  getFileNo e = little_get (_fileNo e) mod 2 ^ 31.
Proof.
  unfold getFileNo.
  rewrite unsigned_of_fileNo_value, unsigned_of_lnot_LocalDbBit.
  rewrite Z.land_ones by lia.
  apply int_of_small.
  pose proof (Z.mod_pos_bound (little_get (_fileNo e)) (2 ^ 31) eq_refl). lia.
Qed.

Lemma getFileNo_range (e : t) : 0 <= getFileNo e < 2 ^ 31.
Proof. rewrite getFileNo_low31. apply Z.mod_pos_bound. reflexivity. Qed.

Lemma fileNo_with_fileNo (f : Z) (e : t) :
  little_get (_fileNo (with_fileNo f e)) = unsigned_of f.
Proof. unfold with_fileNo; cbn [_fileNo]. apply little_get_set. Qed.

Lemma lor_LocalDbBit_low31 (u : Z) : Z.lor u LocalDbBit mod 2 ^ 31 = u mod 2 ^ 31.
Proof.
  rewrite <- !Z.land_ones by lia.
  rewrite Z.land_lor_distr_l.
  change (Z.land LocalDbBit (Z.ones 31)) with 0. apply Z.lor_0_r.
Qed.

Lemma mod32_mod31 (z : Z) : (z mod 2 ^ 32) mod 2 ^ 31 = z mod 2 ^ 31.
Proof.
  change (2 ^ 32) with 4294967296. change (2 ^ 31) with 2147483648.
  Z.div_mod_to_equations. lia.
Qed.

Lemma getFileNo_setLocalDbContextBit (e : t) :
  getFileNo (setLocalDbContextBit e) = getFileNo e.
Proof.
  rewrite !getFileNo_low31. unfold setLocalDbContextBit.
  rewrite fileNo_with_fileNo, unsigned_of_int_of, unsigned_of_fileNo_value.
  unfold unsigned_of. rewrite mod32_mod31. apply lor_LocalDbBit_low31.
Qed.

Lemma getFileNo_clearLocalDbContextBit (e : t) :
  getFileNo (clearLocalDbContextBit e) = getFileNo e.
Proof.
  rewrite (getFileNo_low31 (clearLocalDbContextBit e)).
  unfold clearLocalDbContextBit. rewrite fileNo_with_fileNo.
  pose proof (getFileNo_range e) as H.
  rewrite unsigned_of_small by lia. apply Z.mod_small. lia.
Qed.

Lemma isLocalDbContext_bit31 (e : t) :
  isLocalDbContext e = Z.testbit (little_get (_fileNo e)) 31.
Proof.
  unfold isLocalDbContext, to_bool. rewrite unsigned_of_fileNo_value.
  change LocalDbBit with (2 ^ 31).
  destruct (Z.testbit (little_get (_fileNo e)) 31) eqn:Hb.
  - apply negb_true_iff, Z.eqb_neq. intros H0.
    assert (Hc : Z.testbit (Z.land (little_get (_fileNo e)) (2 ^ 31)) 31 = false)
      by (rewrite H0; apply Z.bits_0).
    rewrite Z.land_spec, Hb, Z.pow2_bits_true in Hc by lia. discriminate.
  - apply negb_false_iff, Z.eqb_eq. apply Z.bits_inj'. intros n Hn.
    rewrite Z.land_spec, Z.bits_0.
    destruct (Z.eq_dec n 31) as [->|Hne].
    + by rewrite Hb.
    + rewrite Z.pow2_bits_false by lia. apply andb_false_r.
Qed.

Lemma isLocalDbContext_setLocalDbContextBit (e : t) :
  isLocalDbContext (setLocalDbContextBit e) = true.
Proof.
  rewrite isLocalDbContext_bit31. unfold setLocalDbContextBit.
  rewrite fileNo_with_fileNo, unsigned_of_int_of, unsigned_of_fileNo_value.
  unfold unsigned_of. rewrite Z.mod_pow2_bits_low by lia.
  rewrite Z.lor_spec. change LocalDbBit with (2 ^ 31).
  rewrite Z.pow2_bits_true by lia. apply orb_true_r.
Qed.

Lemma isLocalDbContext_clearLocalDbContextBit (e : t) :
  isLocalDbContext (clearLocalDbContextBit e) = false.
Proof.
  rewrite isLocalDbContext_bit31. unfold clearLocalDbContextBit.
  rewrite fileNo_with_fileNo.
  pose proof (getFileNo_range e) as H.
  rewrite unsigned_of_small by lia.
  destruct (Z.eq_dec (getFileNo e) 0) as [->|Hne]; [apply Z.bits_0|].
  apply Z.bits_above_log2; [lia|]. apply Z.log2_lt_pow2; lia.
Qed.

End JEntryFacts.

(** C4: setting and then clearing the local-database bit leaves
    [getFileNo()] unchanged; neither setting nor clearing the bit changes
    the low 31 bits that [getFileNo()] returns; [isNsSuffix()] is true
    exactly when [getFileNo()] is 0x7fffffff. *)
Theorem JEntry_fileNo_bit_packing (e : JEntry.t) :
  JEntry.getFileNo (JEntry.clearLocalDbContextBit (JEntry.setLocalDbContextBit e))
  = JEntry.getFileNo e
  /\ JEntry.getFileNo (JEntry.setLocalDbContextBit e) = JEntry.getFileNo e
  /\ JEntry.getFileNo (JEntry.clearLocalDbContextBit e) = JEntry.getFileNo e
  /\ JEntry.getFileNo e = little_get (JEntry._fileNo e) mod 2 ^ 31
  /\ JEntry.isLocalDbContext (JEntry.setLocalDbContextBit e) = true
  /\ JEntry.isLocalDbContext (JEntry.clearLocalDbContextBit e) = false
  /\ (JEntry.isNsSuffix e = true <-> JEntry.getFileNo e = 0x7fffffff).
Proof.
  repeat split.
  - by rewrite getFileNo_clearLocalDbContextBit, getFileNo_setLocalDbContextBit.
  - apply getFileNo_setLocalDbContextBit.
  - apply getFileNo_clearLocalDbContextBit.
  - apply getFileNo_low31.
  - apply isLocalDbContext_setLocalDbContextBit.
  - apply isLocalDbContext_clearLocalDbContextBit.
  - unfold JEntry.isNsSuffix. intros H. apply Z.eqb_eq in H.
    pose proof (getFileNo_range e).
    rewrite unsigned_of_small in H by lia. exact H.
  - unfold JEntry.isNsSuffix. intros H. apply Z.eqb_eq.
    pose proof (getFileNo_range e).
    rewrite unsigned_of_small by lia. exact H.
Qed.

(** C10: [setFileNo(f)] stores the [int] f as it is.  When bit 31 of f is
    clear (f is not negative), [getFileNo()] then returns f and
    [isLocalDbContext()] is false; when bit 31 of f is set (f is negative),
    [isLocalDbContext()] is true and [getFileNo()] returns f with that bit
    cleared. *)
Theorem JEntry_setFileNo_unmasked (e : JEntry.t) (f : Z) :
  - 2 ^ 31 <= f < 2 ^ 31 ->
  JEntry.fileNo_value (JEntry.setFileNo f e) = f
  /\ (Z.testbit f 31 = false ->
      JEntry.getFileNo (JEntry.setFileNo f e) = f
      /\ JEntry.isLocalDbContext (JEntry.setFileNo f e) = false)
  /\ (Z.testbit f 31 = true ->
      JEntry.isLocalDbContext (JEntry.setFileNo f e) = true
      /\ JEntry.getFileNo (JEntry.setFileNo f e) = Z.clearbit (unsigned_of f) 31
      /\ JEntry.getFileNo (JEntry.setFileNo f e) = f + 2 ^ 31).
Proof.
  intros Hf.
  assert (Hget : little_get (JEntry._fileNo (JEntry.setFileNo f e)) = unsigned_of f)
    by apply fileNo_with_fileNo.
  assert (Hbit : Z.testbit (unsigned_of f) 31 = Z.testbit f 31).
  { unfold unsigned_of. apply Z.mod_pow2_bits_low. lia. }
  assert (Hsign : Z.testbit f 31 = true <-> f < 0).
  { destruct (Z.lt_ge_cases f 0) as [Hneg|Hpos].
    - split; [done|]. intros _. apply Z.bits_above_log2_neg; [lia|].
      destruct (Z.eq_dec (Z.pred (- f)) 0) as [->|]; [simpl; lia|].
      apply Z.log2_lt_pow2; lia.
    - split; [|lia]. intros Hb.
      destruct (Z.eq_dec f 0) as [->|]; [rewrite Z.bits_0 in Hb; discriminate|].
      rewrite Z.bits_above_log2 in Hb; [discriminate|lia|apply Z.log2_lt_pow2; lia]. }
  split; [|split].
  - unfold JEntry.fileNo_value, little_get_signed. rewrite Hget. unfold unsigned_of.
    change (2 ^ (8 * Z.of_nat 4)) with 4294967296.
    change (2 ^ 32) with 4294967296. change (4294967296 / 2) with 2147483648.
    change (2 ^ 31) with 2147483648 in Hf.
    Z.div_mod_to_equations. lia.
  - intros Hclear.
    assert (0 <= f) by (destruct (Z.lt_ge_cases f 0) as [Hneg|]; [apply Hsign in Hneg; congruence|lia]).
    split.
    + rewrite getFileNo_low31, Hget, unsigned_of_small by lia. apply Z.mod_small. lia.
    + by rewrite isLocalDbContext_bit31, Hget, Hbit.
  - intros Hset. pose proof (proj1 Hsign Hset) as Hneg.
    assert (Hu : unsigned_of f = f + 2 ^ 32).
    { unfold unsigned_of. change (2 ^ 32) with 4294967296 in *.
      change (2 ^ 31) with 2147483648 in Hf. Z.div_mod_to_equations. lia. }
    assert (Hlow : JEntry.getFileNo (JEntry.setFileNo f e) = f + 2 ^ 31).
    { rewrite getFileNo_low31, Hget, Hu.
      change (2 ^ 32) with 4294967296 in *. change (2 ^ 31) with 2147483648 in *.
      Z.div_mod_to_equations. lia. }
    split; [by rewrite isLocalDbContext_bit31, Hget, Hbit|]. split; [|exact Hlow].
    rewrite Hlow, Hu.
    assert (Hr : 2 ^ 31 <= f + 2 ^ 32 < 2 ^ 32) by lia.
    replace (f + 2 ^ 31) with ((f + 2 ^ 32) mod 2 ^ 31).
    2:{ change (2 ^ 32) with 4294967296 in *. change (2 ^ 31) with 2147483648 in *.
        Z.div_mod_to_equations. lia. }
    apply Z.bits_inj'. intros n Hn.
    rewrite Z.clearbit_eqb, Z.testbit_mod_pow2 by lia.
    destruct (Z.ltb_spec n 31) as [Hlt|Hge].
    + rewrite (proj2 (Z.eqb_neq 31 n)) by lia. by rewrite andb_true_l, andb_true_r.
    + rewrite andb_false_l. destruct (Z.eq_dec n 31) as [->|Hne].
      * rewrite Z.eqb_refl. by rewrite andb_false_r.
      * rewrite Z.bits_above_log2; [reflexivity|lia|].
        apply Z.log2_lt_pow2; [lia|].
        eapply Z.lt_le_trans; [apply Hr|]. apply Z.pow_le_mono_r; lia.
Qed.

Lemma JEntry_setFileNo_unmasked_witness :
  JEntry.getFileNo (JEntry.setFileNo 3 (JEntry.Build (little_set 5) (little_set 0) (little_set 0))) = 3
  /\ JEntry.getFileNo
       (JEntry.setFileNo (-5) (JEntry.Build (little_set 5) (little_set 0) (little_set 0)))
     = 0x7ffffffb.
Proof.
  pose (e := JEntry.Build (little_set 5) (little_set 0) (little_set 0)).
  split.
  - destruct (JEntry_setFileNo_unmasked e 3) as (_ & H & _); [lia|].
    apply H. reflexivity.
  - destruct (JEntry_setFileNo_unmasked e (-5)) as (_ & _ & H); [lia|].
    destruct H as (_ & _ & H); [reflexivity|]. exact H.
Defined.

(** ** Record layout *)

Lemma slice_skip (a l : list byte) (off n : Z) :
  Z.of_nat (length a) <= off ->
  slice off n (a ++ l) = slice (off - Z.of_nat (length a)) n l.
Proof.
  intros H. unfold slice. rewrite drop_app_ge by lia.
  do 2 f_equal. lia.
Qed.

Lemma slice_here (b c : list byte) (off n : Z) :
  off = 0 -> Z.of_nat (length b) = n -> slice off n (b ++ c) = b.
Proof.
  intros -> <-. unfold slice. simpl. rewrite Nat2Z.id. apply take_app_length.
Qed.

Lemma slice_last (b : list byte) (off n : Z) :
  off = 0 -> Z.of_nat (length b) = n -> slice off n b = b.
Proof.
  intros -> <-. unfold slice. simpl. rewrite Nat2Z.id. apply firstn_all.
Qed.

Lemma little_array_length {w n} (v : vec (little w) n) :
  length (concat (map little_bytes (vec_to_list v))) = (n * w)%nat.
Proof.
  induction v as [|x n v IH]; simpl; [reflexivity|].
  by rewrite length_app, IH, little_bytes_length.
Qed.

Lemma reserved3_size_eq : Z.of_nat reserved3_size = 8026.
Proof. reflexivity. Qed.

Ltac field_lengths :=
  rewrite ?length_app, ?length_vec_to_list, ?little_bytes_length,
          ?little_array_length;
  cbn [length]; pose proof reserved3_size_eq; lia.

Ltac field_at :=
  repeat (rewrite slice_skip by field_lengths);
  first [ apply slice_here; field_lengths | apply slice_last; field_lengths ].

Lemma JHeader_layout (h : JHeader.t) :
  let img := JHeader.image h in
  Z.of_nat (length img) = 8192
  /\ slice 0 2 img = vec_to_list (JHeader.magic h)
  /\ slice 2 2 img = little_bytes (JHeader._version h)
  /\ slice 4 1 img = [JHeader.n1 h]
  /\ slice 5 20 img = vec_to_list (JHeader.ts h)
  /\ slice 25 1 img = [JHeader.n2 h]
  /\ slice 26 128 img = vec_to_list (JHeader.dbpath h)
  /\ slice 154 2 img = [JHeader.n3 h; JHeader.n4 h]
  /\ slice 156 8 img = little_bytes (JHeader.fileId h)
  /\ slice 164 8026 img = vec_to_list (JHeader.reserved3 h)
  /\ slice 8190 2 img = vec_to_list (JHeader.txt2 h).
Proof.
  unfold JHeader.image. cbv zeta.
  split; [field_lengths|].
  repeat split; field_at.
Qed.

Lemma JSectHeader_layout (h : JSectHeader.t) :
  let img := JSectHeader.image h in
  Z.of_nat (length img) = 20
  /\ Z.of_nat (length img) = JSectHeader.sizeof
  /\ slice 0 4 img = little_bytes (JSectHeader.len h)
  /\ slice 4 8 img = little_bytes (JSectHeader.seqNumber h)
  /\ slice 12 8 img = little_bytes (JSectHeader.fileId h).
Proof.
  unfold JSectHeader.image, JSectHeader.sizeof. cbv zeta.
  split; [field_lengths|]. split; [field_lengths|].
  repeat split; field_at.
Qed.

Lemma JEntry_layout (e : JEntry.t) :
  let img := JEntry.image e in
  Z.of_nat (length img) = 12
  /\ slice 0 4 img = little_bytes (JEntry.opcode_len e)
  /\ slice 4 4 img = little_bytes (JEntry.ofs e)
  /\ slice 8 4 img = little_bytes (JEntry._fileNo e).
Proof.
  unfold JEntry.image. cbv zeta.
  split; [field_lengths|].
  repeat split; field_at.
Qed.

Lemma JSectFooter_layout (f : JSectFooter.t) :
  let img := JSectFooter.image f in
  Z.of_nat (length img) = 32
  /\ slice 0 4 img = little_bytes (JSectFooter.sentinel f)
  /\ slice 4 16 img = vec_to_list (JSectFooter.hash f)
  /\ slice 20 8 img = little_bytes (JSectFooter.reserved f)
  /\ slice 28 4 img = vec_to_list (JSectFooter.magic f).
Proof.
  unfold JSectFooter.image. cbv zeta.
  split; [field_lengths|].
  repeat split; field_at.
Qed.

Lemma LSNFile_layout (f : LSNFile.t) :
  let img := LSNFile.image f in
  Z.of_nat (length img) = 88
  /\ slice 0 4 img = little_bytes (LSNFile.ver f)
  /\ slice 4 4 img = little_bytes (LSNFile.reserved2 f)
  /\ slice 8 8 img = little_bytes (LSNFile.lsn f)
  /\ slice 16 8 img = little_bytes (LSNFile.checkbytes f)
  /\ slice 24 64 img = concat (map little_bytes (vec_to_list (LSNFile.reserved f))).
Proof.
  unfold LSNFile.image. cbv zeta.
  split; [field_lengths|].
  repeat split; field_at.
Qed.

(** An integer field is stored least significant byte first: byte [i] of
    the field is bits [8i .. 8i+7] of its value. *)
Lemma le_combine_cons (a : byte) (l : list byte) :
  le_combine (a :: l) = Z.lor (byte.unsigned a) (Z.shiftl (le_combine l) 8).
Proof. reflexivity. Qed.

Lemma little_byte_order {w} (x : little w) (i : nat) (b : byte) :
  little_bytes x !! i = Some b ->
  byte.unsigned b = Z.shiftr (little_get x) (8 * Z.of_nat i) mod 2 ^ 8.
Proof.
  unfold little_bytes, little_get. generalize (vec_to_list (le_raw x)). clear x.
  intros l. revert i. induction l as [|a l IH]; intros i Hi; [done|].
  destruct i as [|i].
  - injection Hi as ->. rewrite le_combine_cons, Z.shiftr_0_r.
    rewrite <- Z.land_ones by lia.
    rewrite Z.land_lor_distr_l, !Z.land_ones by lia.
    rewrite Z.shiftl_mul_pow2, Z.mod_mul, Z.lor_0_r by lia.
    symmetry. apply Z.mod_small. apply byte.unsigned_range.
  - rewrite le_combine_cons. simpl in Hi. rewrite (IH _ Hi).
    replace (8 * Z.of_nat (S i)) with (8 + 8 * Z.of_nat i) by lia.
    rewrite <- Z.shiftr_shiftr by lia. f_equal. f_equal.
    rewrite Z.shiftr_lor, Z.shiftr_shiftl_l by lia.
    rewrite Z.sub_diag, Z.shiftl_0_r.
    rewrite Z.shiftr_div_pow2, Z.div_small, Z.lor_0_l by (try apply byte.unsigned_range; lia).
    reflexivity.
Qed.

(** C5: the packed records.  [JHeader] takes 8192 bytes: magic (2), version
    (2), a newline, the timestamp (20), a newline, the path (128), two
    newlines, fileId (8), reserved (8026) and the trailer (2), in that order;
    [JSectHeader] takes 20 bytes (len 4, seqNumber 8, fileId 8); the fixed
    part of [JEntry] takes 12 bytes (opcode or len 4, ofs 4, fileNo 4);
    [JSectFooter] takes 32 bytes (sentinel 4, digest 16, reserved 8, magic
    4); [LSNFile] takes 88 bytes (ver 4, reserved 4, lsn 8, checkbytes 8,
    reserved 64).  Every integer field is stored least significant byte
    first. *)
Theorem packed_record_layout
    (h : JHeader.t) (s : JSectHeader.t) (e : JEntry.t) (f : JSectFooter.t)
    (l : LSNFile.t) :
  (let img := JHeader.image h in
   Z.of_nat (length img) = 8192
   /\ slice 0 2 img = vec_to_list (JHeader.magic h)
   /\ slice 2 2 img = little_bytes (JHeader._version h)
   /\ slice 4 1 img = [JHeader.n1 h]
   /\ slice 5 20 img = vec_to_list (JHeader.ts h)
   /\ slice 25 1 img = [JHeader.n2 h]
   /\ slice 26 128 img = vec_to_list (JHeader.dbpath h)
   /\ slice 154 2 img = [JHeader.n3 h; JHeader.n4 h]
   /\ slice 156 8 img = little_bytes (JHeader.fileId h)
   /\ slice 164 8026 img = vec_to_list (JHeader.reserved3 h)
   /\ slice 8190 2 img = vec_to_list (JHeader.txt2 h))
  /\ (let img := JSectHeader.image s in
      Z.of_nat (length img) = 20
      /\ Z.of_nat (length img) = JSectHeader.sizeof
      /\ slice 0 4 img = little_bytes (JSectHeader.len s)
      /\ slice 4 8 img = little_bytes (JSectHeader.seqNumber s)
      /\ slice 12 8 img = little_bytes (JSectHeader.fileId s))
  /\ (let img := JEntry.image e in
      Z.of_nat (length img) = 12
      /\ slice 0 4 img = little_bytes (JEntry.opcode_len e)
      /\ slice 4 4 img = little_bytes (JEntry.ofs e)
      /\ slice 8 4 img = little_bytes (JEntry._fileNo e))
  /\ (let img := JSectFooter.image f in
      Z.of_nat (length img) = 32
      /\ slice 0 4 img = little_bytes (JSectFooter.sentinel f)
      /\ slice 4 16 img = vec_to_list (JSectFooter.hash f)
      /\ slice 20 8 img = little_bytes (JSectFooter.reserved f)
      /\ slice 28 4 img = vec_to_list (JSectFooter.magic f))
  /\ (let img := LSNFile.image l in
      Z.of_nat (length img) = 88
      /\ slice 0 4 img = little_bytes (LSNFile.ver l)
      /\ slice 4 4 img = little_bytes (LSNFile.reserved2 l)
      /\ slice 8 8 img = little_bytes (LSNFile.lsn l)
      /\ slice 16 8 img = little_bytes (LSNFile.checkbytes l)
      /\ slice 24 64 img = concat (map little_bytes (vec_to_list (LSNFile.reserved l))))
  /\ (forall (w : nat) (x : little w),
        le_combine (little_bytes x) = little_get x
        /\ forall (i : nat) (b : byte),
             little_bytes x !! i = Some b ->
             byte.unsigned b = Z.shiftr (little_get x) (8 * Z.of_nat i) mod 2 ^ 8).
Proof.
  split; [apply JHeader_layout|].
  split; [apply JSectHeader_layout|].
  split; [apply JEntry_layout|].
  split; [apply JSectFooter_layout|].
  split; [apply LSNFile_layout|].
  intros w x. split; [apply little_get_bytes|]. apply little_byte_order.
Qed.

(** ** Memory *)

Lemma load_bytes_length (m : memory) (p n : Z) :
  length (load_bytes m p n) = Z.to_nat n.
Proof. unfold load_bytes. by rewrite length_map, length_seq. Qed.

Lemma load_bytes_lookup (m : memory) (p n : Z) (i : nat) :
  (i < Z.to_nat n)%nat -> load_bytes m p n !! i = Some (m (p + Z.of_nat i)).
Proof.
  intros Hi. unfold load_bytes.
  rewrite list_lookup_fmap, lookup_seq_lt by done. reflexivity.
Qed.

Lemma load_bytes_ext (m m' : memory) (p n : Z) :
  (forall a, p <= a < p + n -> m a = m' a) ->
  load_bytes m p n = load_bytes m' p n.
Proof.
  intros H. unfold load_bytes. apply map_ext_in. intros i Hi.
  apply in_seq in Hi. apply H. lia.
Qed.

Lemma load_store_bytes (m : memory) (p : Z) (bs : list byte) :
  load_bytes (store_bytes m p bs) p (Z.of_nat (length bs)) = bs.
Proof.
  apply list_eq. intros i.
  destruct (decide (i < length bs)%nat) as [Hi|Hi].
  - rewrite load_bytes_lookup by lia. unfold store_bytes.
    destruct (Z.leb_spec p (p + Z.of_nat i)); [|lia].
    destruct (Z.ltb_spec (p + Z.of_nat i) (p + Z.of_nat (length bs))); [|lia].
    simpl. replace (Z.to_nat (p + Z.of_nat i - p)) with i by lia.
    destruct (lookup_lt_is_Some_2 bs i Hi) as [b Hb].
    rewrite Hb. f_equal. by apply nth_lookup_Some with (d := m (p + Z.of_nat i)).
  - rewrite !lookup_ge_None_2; [done|lia|rewrite load_bytes_length; lia].
Qed.


Lemma memcmp_list_refl (a : list byte) : memcmp_list a a = 0.
Proof.
  induction a as [|x a IH]; simpl; [reflexivity|].
  by rewrite Z.ltb_irrefl.
Qed.

Lemma memcmp_list_eq (a b : list byte) :
  length a = length b -> memcmp_list a b = 0 -> a = b.
Proof.
  revert b; induction a as [|x a IH]; intros [|y b] Hl H; simpl in *; try done.
  destruct (Z.ltb_spec (byte.unsigned x) (byte.unsigned y)); [done|].
  destruct (Z.ltb_spec (byte.unsigned y) (byte.unsigned x)); [done|].
  f_equal.
  - apply byte.unsigned_inj. lia.
  - apply IH; [lia|done].
Qed.

(** [memcmp] of two 16-byte digests is 0 exactly when they are equal. *)
Lemma memcmp_digest (h1 h2 : md5digest) :
  (memcmp (vec_to_list h1) (vec_to_list h2) 16 =? 0) = bool_decide (h1 = h2).
Proof.
  unfold memcmp.
  rewrite !firstn_all2 by (rewrite length_vec_to_list; simpl; lia).
  destruct (decide (h1 = h2)) as [->|Hne].
  - rewrite memcmp_list_refl. by rewrite bool_decide_eq_true_2.
  - rewrite bool_decide_eq_false_2 by done. apply Z.eqb_neq. intros H0.
    apply Hne, vec_to_list_inj2, memcmp_list_eq; [|done].
    by rewrite !length_vec_to_list.
Qed.

(** ** JSectFooter *)

Section JSectFooterFacts.
Import JSectFooter.

Variable md5_digest : list byte -> md5digest.

Lemma int_of_hashed_len (len : Z) :
  JSectHeader.sizeof <= len < 2 ^ 31 ->
  int_of (len - JSectHeader.sizeof) = len - JSectHeader.sizeof.
Proof. unfold JSectHeader.sizeof. intros H. apply int_of_small. lia. Qed.

Lemma checkHash_decide (f : t) (m : memory) (begin len : Z) :
  checkHash md5_digest f m begin len
  = bool_decide (hash f = md5_digest (load_bytes m (begin + JSectHeader.sizeof)
                                        (int_of (len - JSectHeader.sizeof)))).
Proof. unfold checkHash, md5. apply memcmp_digest. Qed.




End JSectFooterFacts.


(** C9: [checkHash] looks at the footer's [hash] field and at the bytes at
    [begin + sizeof(JSectHeader) .. begin + len) only: two footers with the
    same [hash], whatever their [sentinel], [reserved] and [magic], give the
    same result over memories that agree on those bytes. *)
Theorem JSectFooter_checkHash_digest_only
    (md5_digest : list byte -> md5digest)
    (f1 f2 : JSectFooter.t) (m1 m2 : memory) (begin len : Z) :
  JSectHeader.sizeof <= len < 2 ^ 31 ->
  JSectFooter.hash f1 = JSectFooter.hash f2 ->
  (forall a, begin + JSectHeader.sizeof <= a < begin + len -> m1 a = m2 a) ->
  JSectFooter.checkHash md5_digest f1 m1 begin len
  = JSectFooter.checkHash md5_digest f2 m2 begin len.
Proof.
  intros Hlen Hh Hm. rewrite !checkHash_decide, Hh.
  rewrite int_of_hashed_len by done.
  rewrite (load_bytes_ext m1 m2); [reflexivity|].
  intros a Ha. apply Hm. lia.
Qed.

(** ** AlignedBuilder *)

Lemma align_up_aligned (a : Z) :
  AlignedBuilder.align_up a mod AlignedBuilder.Alignment = 0.
Proof. unfold AlignedBuilder.align_up. apply Z.mod_mul. discriminate. Qed.

(** The rounded address lies in the block that was asked for. *)
Lemma align_up_within (a sz : Z) :
  a <= AlignedBuilder.align_up a
  /\ AlignedBuilder.align_up a + sz <= a + (sz + AlignedBuilder.Alignment - 1).
Proof.
  unfold AlignedBuilder.align_up, AlignedBuilder.Alignment.
  Z.div_mod_to_equations. lia.
Qed.

Section AlignedBuilderFacts.
Import AlignedBuilder.

Context {heap : Type}.
Variable sys_malloc : heap -> Z -> option (Z * heap).
Variable sys_free : heap -> Z -> heap.
Variable BSONObjMaxUserSize : Z.
Variable new_capacity : Z -> Z -> Z.

#[local] Existing Instances M_ret M_bind.

Abbreviation _realloc := (_realloc sys_malloc sys_free).
Abbreviation growReallocate := (growReallocate sys_malloc sys_free new_capacity).
Abbreviation grow := (grow sys_malloc sys_free new_capacity).
Abbreviation reset := (reset sys_malloc sys_free).
Abbreviation appendStr := (appendStr sys_malloc sys_free BSONObjMaxUserSize new_capacity).
Abbreviation after := (after sys_malloc sys_free BSONObjMaxUserSize new_capacity).
Abbreviation after_all := (after_all sys_malloc sys_free BSONObjMaxUserSize new_capacity).

(** *** What a reallocation does *)

Lemma _realloc_unfold (newSize oldLenInUse : Z) (s : t heap) :
  _realloc newSize oldLenInUse s =
  match sys_malloc (the_heap s) (newSize + Alignment - 1) with
  | None => (Threw OutOfMemory, s)
  | Some (p, h') =>
      (Ok tt,
       Build (sys_free h' (_allocationAddress (_p s)))
             (store_bytes (the_memory s) (align_up p)
                (load_bytes (the_memory s) (_data (_p s)) oldLenInUse))
             {| _data := align_up p; _allocationAddress := p; _size := newSize |}
             (_len s))
  end.
Proof.
  unfold AlignedBuilder._realloc, _malloc, mbind, M_bind, gets, modify, throw, memcpy, _free.
  destruct (sys_malloc (the_heap s) (newSize + Alignment - 1)) as [[p h']|];
    reflexivity.
Qed.

Lemma grow_unfold (by_ : Z) (s : t heap) :
  grow by_ s =
  let s1 := with_len (unsigned_of (_len s + by_)) s in
  if _size (_p s) <? _len s1
  then match _realloc (unsigned_of (new_capacity (_size (_p s)) (_len s1))) (_len s) s1 with
       | (Ok _, s2) => (Ok (_data (_p s2) + _len s), s2)
       | (Threw e, s2) => (Threw e, s2)
       end
  else (Ok (_data (_p s) + _len s), s1).
Proof.
  unfold AlignedBuilder.grow, AlignedBuilder.growReallocate, mbind, M_bind, mret, M_ret,
    gets, modify.
  cbn [snd fst with_len _p _len]. cbv zeta.
  destruct (_size (_p s) <? unsigned_of (_len s + by_)); [|reflexivity].
  destruct (_realloc _ _ _) as [[[]|e] s2]; reflexivity.
Qed.

(** [grow]: the length in use, the position returned, the exceptions. *)
Lemma grow_spec (by_ : Z) (s : t heap) :
  let r := grow by_ s in
  _len (snd r) = unsigned_of (_len s + by_)
  /\ (forall a, fst r = Ok a -> a = _data (_p (snd r)) + _len s)
  /\ (forall e, fst r = Threw e ->
        e = OutOfMemory /\ snd r = with_len (unsigned_of (_len s + by_)) s)
  /\ (unsigned_of (_len s + by_) <= _size (_p s) ->
        r = (Ok (_data (_p s) + _len s), with_len (unsigned_of (_len s + by_)) s)).
Proof.
  cbv zeta. rewrite grow_unfold. cbv zeta. cbn [with_len _len].
  destruct (Z.ltb_spec (_size (_p s)) (unsigned_of (_len s + by_))) as [Hlt|Hge].
  - rewrite _realloc_unfold. cbn [the_heap with_len _p _len the_memory].
    destruct (sys_malloc _ _) as [[p h']|]; cbn [fst snd _len _p _data].
    + repeat split; intros; try done; try congruence; lia.
    + repeat split; intros; try done; try congruence; lia.
  - cbn [fst snd with_len _len _p]. repeat split; intros; try done; congruence.
Qed.

(** *** Properties kept by every member function *)

Lemma preserves_ret {A} (P : t heap -> Prop) (a : A) : preserves P (mret a).
Proof. by intros s Hs. Qed.

Lemma preserves_bind {A B} (P : t heap -> Prop) (c : M heap A) (k : A -> M heap B) :
  preserves P c -> (forall a, preserves P (k a)) -> preserves P (c ≫= k).
Proof.
  intros Hc Hk s Hs. unfold mbind, M_bind. specialize (Hc s Hs).
  destruct (c s) as [[a|e] s']; simpl in *; [by apply Hk|done].
Qed.

Lemma preserves_gets {A} (P : t heap -> Prop) (f : t heap -> A) : preserves P (gets f).
Proof. by intros s Hs. Qed.

Lemma preserves_throw {A} (P : t heap -> Prop) e : preserves P (throw e : M heap A).
Proof. by intros s Hs. Qed.

Lemma preserves_modify (P : t heap -> Prop) (f : t heap -> t heap) :
  (forall s, P s -> P (f s)) -> preserves P (modify f).
Proof. intros Hf s Hs. by apply Hf. Qed.

Lemma preserves_assert (P : t heap -> Prop) (c : bool) : preserves P (assert c : M heap unit).
Proof. destruct c; [apply preserves_ret|apply preserves_throw]. Qed.

Ltac preserved :=
  repeat lazymatch goal with
    | |- preserves _ (mret _) => apply preserves_ret
    | |- preserves _ (gets _) => apply preserves_gets
    | |- preserves _ (throw _) => apply preserves_throw
    | |- preserves _ (assert _) => apply preserves_assert
    | |- preserves _ (_ ≫= _) => apply preserves_bind; [|intros ?]
    | |- preserves _ (modify _) => apply preserves_modify; intros ? ?
    | |- preserves _ (if ?b then _ else _) => destruct b
    end.

(** *** Alignment *)

Lemma malloc_aligned (sz : Z) : preserves aligned (_malloc sys_malloc sz).
Proof.
  unfold _malloc. apply preserves_bind; [apply preserves_gets|]. intros h.
  destruct (sys_malloc h (sz + Alignment - 1)) as [[p h']|]; [|apply preserves_throw].
  apply preserves_modify. intros s _. apply align_up_aligned.
Qed.

Lemma realloc_aligned (newSize oldLenInUse : Z) :
  preserves aligned (_realloc newSize oldLenInUse).
Proof.
  unfold AlignedBuilder._realloc, memcpy, _free.
  preserved; try done. by apply malloc_aligned.
Qed.

Lemma grow_aligned (by_ : Z) : preserves aligned (grow by_).
Proof.
  unfold AlignedBuilder.grow, AlignedBuilder.growReallocate.
  preserved; try done; by apply realloc_aligned.
Qed.

Lemma reset_aligned : preserves aligned reset.
Proof.
  unfold AlignedBuilder.reset.
  preserved; try done; by apply realloc_aligned.
Qed.

Lemma append_aligned (j : scalar) :
  preserves aligned (append sys_malloc sys_free new_capacity j).
Proof. unfold append, copyLE, memcpy_from. preserved; try done. by apply grow_aligned. Qed.

Lemma appendBuf_aligned (src : list byte) :
  preserves aligned (appendBuf sys_malloc sys_free new_capacity src).
Proof. unfold appendBuf, memcpy_from. preserved; try done. by apply grow_aligned. Qed.

Lemma appendStr_aligned (str : list byte) (includeEOO : bool) :
  preserves aligned (appendStr str includeEOO).
Proof.
  unfold AlignedBuilder.appendStr, memcpy_from. preserved; try done.
  by apply grow_aligned.
Qed.

Lemma skip_aligned (n : Z) :
  preserves aligned (skip sys_malloc sys_free new_capacity n).
Proof. unfold skip, len. preserved. by apply grow_aligned. Qed.

Lemma after_aligned (c : call) (s : t heap) : aligned s -> aligned (after c s).
Proof.
  destruct c; cbn [AlignedBuilder.after]; try done.
  - apply reset_aligned.
  - apply skip_aligned.
  - apply append_aligned.
  - apply append_aligned.
  - apply appendBuf_aligned.
  - apply appendBuf_aligned.
  - apply appendStr_aligned.
Qed.

Lemma ctor_aligned (h : heap) (m : memory) (init_size : Z) :
  aligned (snd (ctor sys_malloc h m init_size)).
Proof.
  unfold ctor.
  assert (H : preserves aligned
                (modify (with_len 0);; _malloc sys_malloc (unsigned_of init_size))).
  { preserved; [done|]. by apply malloc_aligned. }
  apply H. reflexivity.
Qed.

(** C8: the buffer of a constructed builder starts at a multiple of
    [Alignment] = 8192, and still does after any sequence of calls,
    whether they return or throw, and whether or not they reallocate. *)
Theorem AlignedBuilder_alignment_invariant
    (h : heap) (m : memory) (init_size : Z) (cs : list call) :
  fst (ctor sys_malloc h m init_size) = Ok tt ->
  let s0 := snd (ctor sys_malloc h m init_size) in
  Alignment = 8192
  /\ _data (_p s0) mod 8192 = 0
  /\ _data (_p (after_all cs s0)) mod 8192 = 0.
Proof.
  intros _ s0. split; [reflexivity|].
  assert (H0 : aligned s0) by apply ctor_aligned.
  split; [exact H0|].
  change (aligned (after_all cs s0)).
  unfold AlignedBuilder.after_all. revert H0. generalize s0. clear s0.
  induction cs as [|c cs IH]; intros s Hs; [exact Hs|].
  simpl. apply IH. by apply after_aligned.
Qed.

(** *** reset *)

Lemma reset_unfold (s : t heap) :
  reset s =
  if sizeCap <? _size (_p s) then _realloc sizeCap 0 (with_len 0 s)
  else (Ok tt, with_len 0 s).
Proof.
  unfold AlignedBuilder.reset, mbind, M_bind, mret, M_ret, gets, modify.
  cbn [with_len _p _len]. by destruct (sizeCap <? _size (_p s)).
Qed.

(** C6: [reset()] sets the length in use to zero.  A capacity of at most
    128 MiB is kept, with the buffer; a larger one is replaced by a buffer
    of 128 MiB when [reset()] returns, which it does unless the allocator
    has no block, in which case it throws and the buffer is kept. *)
Theorem AlignedBuilder_reset_spec (s : t heap) :
  let r := reset s in
  sizeCap = 128 * 1024 * 1024
  /\ _len (snd r) = 0
  /\ (_size (_p s) <= sizeCap ->
      r = (Ok tt, with_len 0 s) /\ _size (_p (snd r)) = _size (_p s))
  /\ (sizeCap < _size (_p s) ->
      (fst r = Ok tt ->
         _size (_p (snd r)) = sizeCap /\ _size (_p (snd r)) <= 128 * 1024 * 1024)
      /\ (fst r = Ok tt <->
            is_Some (sys_malloc (the_heap s) (sizeCap + Alignment - 1)))
      /\ (forall e, fst r = Threw e -> e = OutOfMemory /\ snd r = with_len 0 s)).
Proof.
  cbv zeta. rewrite reset_unfold. split; [reflexivity|].
  destruct (Z.ltb_spec sizeCap (_size (_p s))) as [Hbig|Hsmall].
  - rewrite _realloc_unfold. cbn [the_heap with_len _p _len the_memory].
    destruct (sys_malloc (the_heap s) (sizeCap + Alignment - 1)) as [[p h']|];
      cbn [fst snd _len _p _size].
    + split; [reflexivity|]. split; [lia|]. intros _.
      split; [intros _; split; [reflexivity|unfold sizeCap; lia]|].
      split; [split; [by eexists|done]|]. intros e [=].
    + split; [reflexivity|]. split; [lia|]. intros _.
      split; [intros [=]|].
      split; [split; [intros [=]|intros [? [=]]]|]. by intros e [= <-].
  - split; [reflexivity|]. split; [done|]. lia.
Qed.

(** *** appendStr *)



Lemma load_bytes_app (m : memory) (p a b : Z) :
  0 <= a -> 0 <= b ->
  load_bytes m p (a + b) = load_bytes m p a ++ load_bytes m (p + a) b.
Proof.
  intros Ha Hb. apply list_eq. intros i.
  destruct (decide (i < Z.to_nat a)%nat) as [Hi|Hi].
  - rewrite lookup_app_l by (rewrite load_bytes_length; lia).
    by rewrite !load_bytes_lookup by lia.
  - rewrite lookup_app_r by (rewrite load_bytes_length; lia).
    rewrite load_bytes_length.
    destruct (decide (i < Z.to_nat (a + b))%nat) as [Hi'|Hi'].
    + rewrite !load_bytes_lookup by lia. do 2 f_equal. lia.
    + rewrite !lookup_ge_None_2; [done| |]; rewrite load_bytes_length; lia.
Qed.

Lemma load_bytes_store_before (m : memory) (p n q : Z) (bs : list byte) :
  p + n <= q -> load_bytes (store_bytes m q bs) p n = load_bytes m p n.
Proof.
  intros H. apply load_bytes_ext. intros a Ha. unfold store_bytes.
  destruct (Z.leb_spec q a); [lia|]. reflexivity.
Qed.




End AlignedBuilderFacts.

(** ** Running the checksum with MD5 *)

Example md5_empty :
  map byte.unsigned (vec_to_list (MD5.digest [])) =
  [0xd4; 0x1d; 0x8c; 0xd9; 0x8f; 0x00; 0xb2; 0x04;
   0xe9; 0x80; 0x09; 0x98; 0xec; 0xf8; 0x42; 0x7e].
Proof. vm_compute. reflexivity. Qed.

Example md5_abc :
  map byte.unsigned (vec_to_list (MD5.digest [Byte.x61; Byte.x62; Byte.x63])) =
  [0x90; 0x01; 0x50; 0x98; 0x3c; 0xd2; 0x4f; 0xb0;
   0xd6; 0x96; 0x3f; 0x7d; 0x28; 0xe1; 0x7f; 0x72].
Proof. vm_compute. reflexivity. Qed.



Lemma JSectFooter_checkHash_digest_only_witness :
  let f := JSectFooter.ctor MD5.digest example_memory 4096 37 in
  let f' := JSectFooter.Build (little_set 0) (JSectFooter.hash f) (little_set 77)
              (vreplicate 4 Byte.x00) in
  JSectFooter.checkHash MD5.digest f' example_memory 4096 37
  = JSectFooter.checkHash MD5.digest f example_memory 4096 37.
Proof.
  intros f f'.
  apply (JSectFooter_checkHash_digest_only MD5.digest f' f example_memory example_memory 4096 37).
  - unfold JSectHeader.sizeof. lia.
  - reflexivity.
  - reflexivity.
Defined.

(** ** Running the builder *)

Lemma AlignedBuilder_alignment_invariant_witness :
  AlignedBuilder._data
    (AlignedBuilder._p
       (AlignedBuilder.after_all bump_malloc bump_free (16 * 1024 * 1024) double_capacity
          [AlignedBuilder.AppendStr [Byte.x68; Byte.x69] true;
           AlignedBuilder.Skip 100;
           AlignedBuilder.AppendNum (AlignedBuilder.SInt 5);
           AlignedBuilder.Reset;
           AlignedBuilder.Skip (256 * 1024 * 1024);
           AlignedBuilder.Reset]
          example_builder)) mod 8192 = 0.
Proof.
  apply (AlignedBuilder_alignment_invariant bump_malloc bump_free (16 * 1024 * 1024)
           double_capacity 4097 (fun _ => Byte.x00) 16).
  reflexivity.
Defined.

Lemma AlignedBuilder_reset_spec_witness :
  let s := AlignedBuilder.after_all bump_malloc bump_free (16 * 1024 * 1024) double_capacity
             [AlignedBuilder.Skip (256 * 1024 * 1024)] example_builder in
  AlignedBuilder._size (AlignedBuilder._p s) = 256 * 1024 * 1024
  /\ AlignedBuilder._size
       (AlignedBuilder._p (snd (AlignedBuilder.reset bump_malloc bump_free s)))
     = 128 * 1024 * 1024.
Proof.
  intros s.
  destruct (AlignedBuilder_reset_spec bump_malloc bump_free s) as (_ & _ & _ & Hbig).
  split; [reflexivity|].
  destruct Hbig as (Hcap & _); [vm_compute; reflexivity|].
  apply Hcap. reflexivity.
Defined.




(** * Further properties *)

(** ** JEntry: the file number and its flag *)

Section JEntryMore.
Import JEntry.

Lemma bit31_split (g : Z) :
  0 <= g < 2 ^ 32 ->
  g = g mod 2 ^ 31 + (if Z.testbit g 31 then 2 ^ 31 else 0).
Proof.
  intros Hg.
  assert (Hb : Z.testbit g 31 = Z.odd (g / 2 ^ 31)).
  { rewrite Z.testbit_odd, Z.shiftr_div_pow2 by lia. reflexivity. }
  rewrite Hb.
  assert (Hq : 0 <= g / 2 ^ 31 < 2).
  { split; [apply Z.div_pos; lia|apply Z.div_lt_upper_bound; lia]. }
  pose proof (Z.div_mod g (2 ^ 31) ltac:(lia)) as Hdm.
  assert (Hc : g / 2 ^ 31 = 0 \/ g / 2 ^ 31 = 1) by lia.
  destruct Hc as [Hc|Hc]; rewrite Hc in *; simpl Z.odd; cbv iota; lia.
Qed.

Lemma lor_LocalDbBit_range (u : Z) : 0 <= u < 2 ^ 32 -> 0 <= Z.lor u LocalDbBit < 2 ^ 32.
Proof.
  intros Hu.
  assert (H0 : 0 <= Z.lor u LocalDbBit) by (apply Z.lor_nonneg; unfold LocalDbBit; lia).
  split; [exact H0|].
  assert (Hpos : 0 < Z.lor u LocalDbBit).
  { destruct (Z.eq_dec (Z.lor u LocalDbBit) 0) as [Hz|]; [|lia].
    apply Z.lor_eq_0_iff in Hz as [_ Hz]. discriminate. }
  apply Z.log2_lt_pow2; [exact Hpos|].
  rewrite Z.log2_lor by (unfold LocalDbBit; lia).
  apply Z.max_lub_lt; [|reflexivity].
  destruct (Z.eq_dec u 0) as [->|]; [reflexivity|]. apply Z.log2_lt_pow2; lia.
Qed.

Lemma with_fileNo_id (f : Z) (e : t) :
  unsigned_of f = little_get (_fileNo e) -> with_fileNo f e = e.
Proof.
  intros H. destruct e as [o a x]. unfold with_fileNo; cbn [opcode_len ofs _fileNo] in *.
  f_equal. apply little_get_inj. rewrite little_get_set. exact H.
Qed.

(** X1: the two getters determine the stored field.  Storing
    [getFileNo()] back with [setFileNo], and setting the local-database bit
    again when [isLocalDbContext()] was true, gives the entry back. *)
Theorem JEntry_fileNo_roundtrip (e : t) :
  (if isLocalDbContext e
   then setLocalDbContextBit (setFileNo (getFileNo e) e)
   else setFileNo (getFileNo e) e) = e.
Proof.
  pose proof (little_get_range (_fileNo e)) as Hg.
  change (2 ^ (8 * Z.of_nat 4)) with (2 ^ 32) in Hg.
  pose proof (bit31_split _ Hg) as Hsplit.
  pose proof (getFileNo_range e) as Hr.
  rewrite isLocalDbContext_bit31.
  destruct (Z.testbit (little_get (_fileNo e)) 31) eqn:Hb.
  - unfold setLocalDbContextBit, setFileNo.
    rewrite unsigned_of_fileNo_value, fileNo_with_fileNo.
    rewrite unsigned_of_small by lia.
    assert (Hw : with_fileNo (int_of (Z.lor (getFileNo e) LocalDbBit)) (with_fileNo (getFileNo e) e)
                 = with_fileNo (int_of (Z.lor (getFileNo e) LocalDbBit)) e) by reflexivity.
    rewrite Hw. apply with_fileNo_id. rewrite unsigned_of_int_of.
    pose proof (lor_LocalDbBit_range (getFileNo e) ltac:(lia)) as Hl.
    rewrite unsigned_of_small by exact Hl.
    pose proof (bit31_split _ Hl) as Hs2.
    rewrite lor_LocalDbBit_low31 in Hs2.
    replace (Z.testbit (Z.lor (getFileNo e) LocalDbBit) 31) with true in Hs2.
    2:{ rewrite Z.lor_spec. change LocalDbBit with (2 ^ 31).
        rewrite Z.pow2_bits_true by lia. by rewrite orb_true_r. }
    rewrite (Z.mod_small (getFileNo e)) in Hs2 by lia.
    rewrite Hs2, getFileNo_low31. lia.
  - unfold setFileNo. apply with_fileNo_id.
    rewrite unsigned_of_small by lia. rewrite getFileNo_low31. lia.
Qed.

(** X2: the local-database flag is the top bit of the last byte of the
    12-byte fixed part of the entry (offset 11). *)
Theorem JEntry_local_bit_on_disk (e : t) (b : byte) :
  image e !! 11%nat = Some b ->
  isLocalDbContext e = Z.testbit (byte.unsigned b) 7.
Proof.
  intros Hb. unfold image in Hb.
  rewrite lookup_app_r in Hb by (rewrite little_bytes_length; lia).
  rewrite lookup_app_r in Hb by (rewrite !little_bytes_length; lia).
  rewrite !little_bytes_length in Hb. simpl in Hb.
  rewrite (little_byte_order _ _ _ Hb), isLocalDbContext_bit31.
  rewrite Z.mod_pow2_bits_low, Z.shiftr_spec by lia. reflexivity.
Qed.

Lemma JEntry_local_bit_on_disk_witness :
  JEntry.isLocalDbContext
    (JEntry.setFileNo (-5) (JEntry.Build (little_set 5) (little_set 0) (little_set 0)))
  = Z.testbit (byte.unsigned Byte.xff) 7.
Proof.
  apply JEntry_local_bit_on_disk. reflexivity.
Defined.

(** The data of an entry follows its fixed part. *)
Lemma srcData_after_image (this : Z) (e : t) :
  srcData this = this + Z.of_nat (length (image e)).
Proof.
  destruct (JEntry_layout e) as (Hl & _). cbv zeta in Hl. rewrite Hl.
  unfold srcData, offsetof_fileNo, sizeof_fileNo. lia.
Qed.

(** X3: an entry written to memory with its data right after it is read
    back: the 12 bytes at its address are its fixed part, and [srcData()]
    is the address of the data. *)
Theorem JEntry_srcData_roundtrip (m : memory) (this : Z) (e : t) (data : list byte) :
  let m' := store_bytes m this (image e ++ data) in
  load_bytes m' this 12 = image e
  /\ load_bytes m' (srcData this) (Z.of_nat (length data)) = data.
Proof.
  intros m'.
  assert (Hl : Z.of_nat (length (image e)) = 12) by apply (JEntry_layout e).
  assert (Hall : load_bytes m' this (12 + Z.of_nat (length data)) = image e ++ data).
  { subst m'. rewrite <- Hl, <- Nat2Z.inj_add, <- length_app. apply load_store_bytes. }
  assert (Happ : load_bytes m' this (12 + Z.of_nat (length data))
                 = load_bytes m' this 12 ++ load_bytes m' (this + 12) (Z.of_nat (length data))).
  { apply list_eq. intros i.
    destruct (decide (i < 12)%nat) as [Hi|Hi].
    - rewrite lookup_app_l by (rewrite load_bytes_length; lia).
      by rewrite !load_bytes_lookup by lia.
    - rewrite lookup_app_r by (rewrite load_bytes_length; lia).
      rewrite load_bytes_length.
      destruct (decide (i < 12 + length data)%nat) as [Hi'|Hi'].
      + rewrite !load_bytes_lookup by lia. do 2 f_equal. lia.
      + rewrite !lookup_ge_None_2; [done| |]; rewrite load_bytes_length; lia. }
  rewrite Happ in Hall.
  apply app_inj_1 in Hall as [H1 H2]; [|rewrite load_bytes_length; lia].
  split; [exact H1|].
  rewrite (srcData_after_image this e), Hl. exact H2.
Qed.

(** [suffix] is "ns" for the [DotNsSuffix] file number only. *)
Lemma suffix_ns_iff (f : Z) :
  - 2 ^ 31 <= f < 2 ^ 31 -> suffix f = "ns"%string <-> f = DotNsSuffix.
Proof.
  intros Hf.
  assert (Heq : (unsigned_of f =? DotNsSuffix) = true <-> f = DotNsSuffix).
  { rewrite Z.eqb_eq. unfold unsigned_of, DotNsSuffix.
    change (2 ^ 32) with 4294967296. change (2 ^ 31) with 2147483648 in Hf.
    split; [|intros ->; reflexivity].
    intros H. Z.div_mod_to_equations. lia. }
  unfold suffix. destruct (unsigned_of f =? DotNsSuffix) eqn:E.
  - split; [intros _; by apply Heq|done].
  - split.
    + intros H. pose proof (NilEmpty.isi (Z.to_int f)) as Hi. rewrite H in Hi.
      discriminate.
    + intros H. apply Heq in H. congruence.
Qed.

Lemma decimal_injective (x y : Z) :
  NilEmpty.string_of_int (Z.to_int x) = NilEmpty.string_of_int (Z.to_int y) -> x = y.
Proof.
  intros H. apply (f_equal NilEmpty.int_of_string) in H.
  rewrite !NilEmpty.isi in H. injection H as H.
  rewrite <- (DecimalZ.of_to x), <- (DecimalZ.of_to y). by rewrite H.
Qed.

(** X4: [suffix] gives "ns" for the [DotNsSuffix] file number only, and
    different file numbers have different suffixes. *)
Theorem JEntry_suffix_injective (f g : Z) :
  - 2 ^ 31 <= f < 2 ^ 31 -> - 2 ^ 31 <= g < 2 ^ 31 ->
  (suffix f = "ns"%string <-> f = DotNsSuffix)
  /\ (suffix f = suffix g -> f = g).
Proof.
  intros Hf Hg. split; [by apply suffix_ns_iff|].
  intros H.
  destruct (decide (f = DotNsSuffix)) as [Ef|Ef], (decide (g = DotNsSuffix)) as [Eg|Eg].
  - congruence.
  - apply suffix_ns_iff in Ef; [|done]. rewrite Ef in H. symmetry in H.
    apply suffix_ns_iff in H; [congruence|done].
  - apply suffix_ns_iff in Eg; [|done]. rewrite Eg in H.
    apply suffix_ns_iff in H; [congruence|done].
  - assert (Hn : forall z, - 2 ^ 31 <= z < 2 ^ 31 -> z <> DotNsSuffix ->
                   suffix z = NilEmpty.string_of_int (Z.to_int z)).
    { intros z Hz Hne. unfold suffix.
      destruct (unsigned_of z =? DotNsSuffix) eqn:E; [|done].
      exfalso. apply Hne. apply suffix_ns_iff; [done|]. unfold suffix. by rewrite E. }
    rewrite !Hn in H by done. by apply decimal_injective.
Qed.

Lemma JEntry_suffix_injective_witness :
  (JEntry.suffix 2147483647 = "ns"%string <-> 2147483647 = JEntry.DotNsSuffix)
  /\ (JEntry.suffix 2147483647 = JEntry.suffix 12 -> 2147483647 = 12).
Proof. apply JEntry_suffix_injective; lia. Defined.

(** X14: the suffix of the file number of an entry is "ns" exactly when
    [isNsSuffix()] holds, whatever the local-database bit. *)
Theorem JEntry_suffix_isNsSuffix (e : t) :
  suffix (getFileNo e) = "ns"%string <-> isNsSuffix e = true.
Proof.
  pose proof (getFileNo_range e) as Hr.
  rewrite suffix_ns_iff by lia.
  unfold isNsSuffix. rewrite Z.eqb_eq, unsigned_of_small by lia. reflexivity.
Qed.

End JEntryMore.

(** ** The records as bytes *)

Lemma slice_lookup (off n : Z) (l : list byte) (i : nat) :
  0 <= off -> (i < Z.to_nat n)%nat ->
  slice off n l !! i = l !! (Z.to_nat off + i)%nat.
Proof.
  intros Hoff Hi. unfold slice. rewrite lookup_take_lt by done. apply lookup_drop.
Qed.

Lemma little_bytes_inj {w} (x y : little w) : little_bytes x = little_bytes y -> x = y.
Proof.
  destruct x as [a], y as [b]. unfold little_bytes; simpl. intros H.
  f_equal. by apply vec_to_list_inj2.
Qed.

(** The value of a field is [v] exactly when its bytes are the
    little-endian bytes of [v]. *)
Lemma little_get_eq_bytes {w} (x : little w) (v : Z) :
  0 <= v < 2 ^ (8 * Z.of_nat w) ->
  little_get x = v <-> little_bytes x = le_split w v.
Proof.
  intros Hv. split.
  - intros <-. rewrite <- (little_set_get x) at 1.
    unfold little_set, little_bytes; simpl. apply vec_to_list_le_vsplit.
  - intros H. rewrite <- little_get_bytes, H, le_combine_split.
    rewrite Z.mod_small; [done|]. replace (Z.of_nat w * 8) with (8 * Z.of_nat w) by lia.
    exact Hv.
Qed.

(** X5: [valid()] in terms of the 8192 bytes of the header: the first byte
    is 'j', the last byte is a line feed, and the eight bytes of [fileId] at
    offset 156 are not all zero. *)
Theorem JHeader_valid_on_disk (h : JHeader.t) :
  let img := JHeader.image h in
  JHeader.valid h = true <->
  img !! 0%nat = Some char_j
  /\ img !! Z.to_nat 8191 = Some char_nl
  /\ slice 156 8 img <> replicate 8 Byte.x00.
Proof.
  intros img.
  destruct (JHeader_layout h) as (_ & Hm & _ & _ & _ & _ & _ & _ & Hf & _ & Ht).
  cbv zeta in Hm, Hf, Ht. fold img in Hm, Hf, Ht.
  assert (H0 : img !! 0%nat = Some (JHeader.magic h !!! 0%fin)).
  { pose proof (slice_lookup 0 2 img 0 ltac:(lia) ltac:(lia)) as E.
    rewrite Hm in E. change (Z.to_nat 0 + 0)%nat with 0%nat in E.
    rewrite <- E. exact (proj1 (vlookup_lookup (JHeader.magic h) 0%fin _) eq_refl). }
  assert (H1 : img !! Z.to_nat 8191 = Some (JHeader.txt2 h !!! 1%fin)).
  { pose proof (slice_lookup 8190 2 img 1 ltac:(lia) ltac:(lia)) as E.
    rewrite Ht in E.
    replace (Z.to_nat 8190 + 1)%nat with (Z.to_nat 8191) in E by lia.
    rewrite <- E. exact (proj1 (vlookup_lookup (JHeader.txt2 h) 1%fin _) eq_refl). }
  rewrite valid_iff, H0, H1, Hf.
  assert (Hz : little_get (JHeader.fileId h) = 0
               <-> little_bytes (JHeader.fileId h) = replicate 8 Byte.x00).
  { apply (little_get_eq_bytes (JHeader.fileId h) 0). simpl. lia. }
  split.
  - intros (-> & -> & Hid). split; [done|]. split; [done|]. by rewrite <- Hz.
  - intros ([= ->] & [= ->] & Hid). split; [done|]. split; [done|]. by rewrite Hz.
Qed.

(** X6: [versionOk()] in terms of the bytes of the header: the two bytes at
    offset 2 are 0x47 0x41 ("GA" when the file is read as text). *)
Theorem JHeader_versionOk_on_disk (h : JHeader.t) :
  JHeader.versionOk h = true <->
  slice 2 2 (JHeader.image h) = [Byte.x47; Byte.x41].
Proof.
  destruct (JHeader_layout h) as (_ & _ & Hv & _). cbv zeta in Hv.
  rewrite Hv, versionOk_iff.
  apply (little_get_eq_bytes (JHeader._version h) JHeader.CurrentVersion).
  unfold JHeader.CurrentVersion. simpl. lia.
Qed.

(** X7: the bytes of a footer made by the constructor: the sentinel
    [OpCode_Footer] as four 0xff bytes, the 16 bytes of the digest of the
    section after its header, eight zero bytes, four line feeds.  Read as
    the first field of an entry, the sentinel is a control opcode, not a
    length. *)
Theorem JSectFooter_ctor_image
    (md5_digest : list byte -> md5digest) (m : memory) (begin len : Z) :
  let f := JSectFooter.ctor md5_digest m begin len in
  JSectFooter.image f
  = replicate 4 Byte.xff
    ++ vec_to_list (md5_digest (load_bytes m (begin + 20) (int_of (len - 20))))
    ++ replicate 8 Byte.x00 ++ replicate 4 char_nl
  /\ little_get (JSectFooter.sentinel f) = JEntry.OpCode_Footer
  /\ JEntry.OpCode_Min <= little_get (JSectFooter.sentinel f).
Proof.
  intros f. split; [reflexivity|]. split; [reflexivity|].
  vm_compute. discriminate.
Qed.

(** X15: [checkHash(begin, len)] returns true exactly when the 16 bytes of
    the [hash] field are the digest of the bytes at offsets
    [sizeof(JSectHeader) = 20 .. len) from [begin]. *)
Theorem JSectFooter_checkHash_iff
    (md5_digest : list byte -> md5digest) (f : JSectFooter.t) (m : memory)
    (begin len : Z) :
  20 <= len < 2 ^ 31 ->
  JSectFooter.checkHash md5_digest f m begin len = true <->
  JSectFooter.hash f = md5_digest (load_bytes m (begin + 20) (len - 20)).
Proof.
  intros Hlen. rewrite checkHash_decide, bool_decide_eq_true.
  rewrite int_of_hashed_len by (unfold JSectHeader.sizeof; lia). reflexivity.
Qed.

Lemma JSectFooter_checkHash_iff_witness :
  JSectFooter.checkHash MD5.digest
    (JSectFooter.Build (little_set 0) example_digest (little_set 0)
       (vreplicate 4 Byte.x00))
    example_memory 4096 37 = true.
Proof.
  apply (JSectFooter_checkHash_iff MD5.digest); [lia|].
  apply vec_to_list_inj2. vm_compute. reflexivity.
Defined.

(** ** AlignedBuilder: appending within the capacity *)

Section AlignedBuilderMore.
Import AlignedBuilder.

Context {heap : Type}.
Variable sys_malloc : heap -> Z -> option (Z * heap).
Variable sys_free : heap -> Z -> heap.
Variable BSONObjMaxUserSize : Z.
Variable new_capacity : Z -> Z -> Z.

#[local] Existing Instances M_ret M_bind.

Abbreviation grow' := (grow sys_malloc sys_free new_capacity).
Abbreviation skip' := (skip sys_malloc sys_free new_capacity).
Abbreviation append' := (append sys_malloc sys_free new_capacity).
Abbreviation appendBuf' := (appendBuf sys_malloc sys_free new_capacity).
Abbreviation reset' := (reset sys_malloc sys_free).
Abbreviation after_all' := (after_all sys_malloc sys_free BSONObjMaxUserSize new_capacity).

Lemma contents_put_at_end (bs : list byte) (s : t heap) :
  0 <= _len s -> contents (put_at_end bs s) = contents s ++ bs.
Proof.
  intros Hl. unfold contents, put_at_end. cbn [with_memory with_len the_memory _p _len].
  rewrite load_bytes_app by lia. f_equal.
  - apply load_bytes_store_before. lia.
  - apply load_store_bytes.
Qed.

Lemma grow_store_fits (bs : list byte) (s : t heap) :
  0 <= _len s ->
  _len s + Z.of_nat (length bs) <= _size (_p s) -> _size (_p s) < 2 ^ 32 ->
  (dst ← grow' (Z.of_nat (length bs)); memcpy_from dst bs) s
  = (Ok tt, put_at_end bs s).
Proof.
  intros Hl Hfit Hsz.
  destruct (grow_spec sys_malloc sys_free new_capacity (Z.of_nat (length bs)) s)
    as (_ & _ & _ & Hroom).
  rewrite unsigned_of_small in Hroom by lia. specialize (Hroom Hfit).
  unfold mbind, M_bind. rewrite Hroom. reflexivity.
Qed.

Lemma appendBuf_fits (src : list byte) (s : t heap) :
  0 <= _len s ->
  _len s + Z.of_nat (length src) <= _size (_p s) -> _size (_p s) < 2 ^ 32 ->
  appendBuf' src s = (Ok tt, put_at_end src s).
Proof.
  intros Hl Hfit Hsz. unfold appendBuf.
  rewrite unsigned_of_small by lia. by apply grow_store_fits.
Qed.

Lemma append_fits (j : scalar) (s : t heap) :
  0 <= _len s ->
  _len s + Z.of_nat (scalar_size j) <= _size (_p s) -> _size (_p s) < 2 ^ 32 ->
  append' j s = (Ok tt, put_at_end (le_split (scalar_size j) (scalar_value j)) s).
Proof.
  intros Hl Hfit Hsz. unfold append, copyLE.
  rewrite <- (length_le_split (scalar_size j) (scalar_value j)) at 1.
  apply grow_store_fits; rewrite ?length_le_split; done.
Qed.

(** X8: [skip(n)] returns the length in use before the call.  With room for
    [n] more bytes it does not throw and changes nothing but the length in
    use, which grows by [n]: the buffer stays where it is, the bytes in use
    before are still the first bytes in use, and [atOfs] of the value
    returned is the start of the room left. *)
Theorem AlignedBuilder_skip_spec (s : t heap) (n : Z) :
  0 <= _len s -> 0 <= n -> _len s + n < 2 ^ 32 ->
  let r := skip' n s in
  (forall l, fst r = Ok l -> l = _len s)
  /\ (_len s + n <= _size (_p s) ->
      r = (Ok (_len s), with_len (_len s + n) s)
      /\ take (Z.to_nat (_len s)) (contents (snd r)) = contents s
      /\ fst (atOfs (_len s) (snd r)) = Ok (_data (_p s) + _len s)).
Proof.
  intros Hl Hn Hsum r.
  destruct (grow_spec sys_malloc sys_free new_capacity n s) as (_ & _ & _ & Hroom).
  rewrite unsigned_of_small in Hroom by lia.
  assert (Hr : r = match grow' n s with
                   | (Ok _, s') => (Ok (_len s), s')
                   | (Threw e, s') => (Threw e, s')
                   end).
  { subst r. unfold skip, len, mbind, M_bind, mret, M_ret, gets. cbn [fst snd].
    by destruct (grow' n s) as [[?|?] ?]. }
  split.
  - intros l. rewrite Hr. destruct (grow' n s) as [[?|?] ?]; cbn [fst]; congruence.
  - intros Hfit. specialize (Hroom Hfit). rewrite Hroom in Hr.
    split; [exact Hr|]. rewrite Hr. cbn [fst snd]. split; [|reflexivity].
    unfold contents. cbn [with_len the_memory _p _len].
    rewrite load_bytes_app by lia. rewrite take_app_length'; [done|].
    rewrite load_bytes_length. lia.
Qed.

(** X9: a sequence of [appendBuf] calls that fits the capacity appends the
    buffers one after the other: no call throws or reallocates, the length
    in use grows by the total length, and the bytes in use are the earlier
    ones followed by the buffers in order. *)
Theorem AlignedBuilder_appendBuf_sequence (bufs : list (list byte)) (s : t heap) :
  0 <= _len s ->
  _len s + Z.of_nat (length (concat bufs)) <= _size (_p s) ->
  _size (_p s) < 2 ^ 32 ->
  let s' := after_all' (map AppendBuf bufs) s in
  _p s' = _p s
  /\ the_heap s' = the_heap s
  /\ _len s' = _len s + Z.of_nat (length (concat bufs))
  /\ contents s' = contents s ++ concat bufs
  /\ appendBuf_all_return sys_malloc sys_free new_capacity bufs s.
Proof.
  revert s. induction bufs as [|b bufs IH]; intros s Hl Hfit Hsz; cbv zeta.
  - simpl. rewrite Z.add_0_r, app_nil_r. done.
  - simpl concat in *. rewrite length_app in *.
    assert (Hb : appendBuf' b s = (Ok tt, put_at_end b s)) by (apply appendBuf_fits; lia).
    cbn [map]. unfold AlignedBuilder.after_all. cbn [fold_left AlignedBuilder.after].
    rewrite Hb. cbn [snd].
    specialize (IH (put_at_end b s)). cbv zeta in IH.
    unfold AlignedBuilder.after_all in IH.
    destruct IH as (Hp & Hh & Hlen & Hc & Hall).
    + cbn [put_at_end with_memory with_len _len]. lia.
    + cbn [put_at_end with_memory with_len _len _p]. lia.
    + exact Hsz.
    + rewrite Hp, Hh, Hlen, Hc, contents_put_at_end by lia.
      cbn [put_at_end with_memory with_len _len _p the_heap].
      repeat split; [lia|by rewrite app_assoc|by rewrite Hb|by rewrite Hb].
Qed.

(** X10: [appendNum] writes the number in little-endian order: with room
    left, the call returns, the bytes in use are the earlier ones followed
    by the [sizeof(T)] bytes of the number, and reading those bytes back
    least significant first gives the number modulo 2^(8 sizeof(T)). *)
Theorem AlignedBuilder_appendNum_roundtrip (j : scalar) (s : t heap) :
  0 <= _len s ->
  _len s + Z.of_nat (scalar_size j) <= _size (_p s) -> _size (_p s) < 2 ^ 32 ->
  let r := appendNum sys_malloc sys_free new_capacity j s in
  fst r = Ok tt
  /\ _p (snd r) = _p s
  /\ _len (snd r) = _len s + Z.of_nat (scalar_size j)
  /\ take (Z.to_nat (_len s)) (contents (snd r)) = contents s
  /\ le_combine (drop (Z.to_nat (_len s)) (contents (snd r)))
     = scalar_value j mod 2 ^ (8 * Z.of_nat (scalar_size j)).
Proof.
  intros Hl Hfit Hsz r. subst r. unfold appendNum.
  rewrite append_fits by done. cbn [fst snd].
  rewrite contents_put_at_end by done.
  assert (Hc : length (contents s) = Z.to_nat (_len s))
    by (unfold contents; apply load_bytes_length).
  split; [done|]. split; [done|]. split.
  { cbn [put_at_end with_memory with_len _len]. by rewrite length_le_split. }
  split.
  - rewrite take_app_length'; done.
  - rewrite drop_app_length' by done. rewrite le_combine_split.
    f_equal. f_equal. lia.
Qed.

(** X11: the length in use is a 32-bit counter.  When [skip(n)] takes it to
    2^32 or more it wraps around: the call returns without reallocating and
    the length in use afterwards is smaller than before. *)
Theorem AlignedBuilder_skip_wraps (s : t heap) (n : Z) :
  0 <= _len s <= _size (_p s) -> _size (_p s) < 2 ^ 32 ->
  0 <= n < 2 ^ 32 -> 2 ^ 32 <= _len s + n ->
  skip' n s = (Ok (_len s), with_len (_len s + n - 2 ^ 32) s)
  /\ _len (snd (skip' n s)) < _len s.
Proof.
  intros Hl Hsz Hn Hwrap.
  assert (Hu : unsigned_of (_len s + n) = _len s + n - 2 ^ 32).
  { unfold unsigned_of. change (2 ^ 32) with 4294967296 in *.
    Z.div_mod_to_equations. lia. }
  destruct (grow_spec sys_malloc sys_free new_capacity n s) as (_ & _ & _ & Hroom).
  rewrite Hu in Hroom. specialize (Hroom ltac:(lia)).
  assert (Hs : skip' n s = (Ok (_len s), with_len (_len s + n - 2 ^ 32) s)).
  { unfold skip, len, mbind, M_bind, mret, M_ret, gets. cbn [fst snd].
    by rewrite Hroom. }
  split; [exact Hs|]. rewrite Hs. cbn [snd with_len _len]. lia.
Qed.

(** X12: re-use after [reset()].  With a capacity of at most 128 MiB,
    [reset()] followed by an [appendBuf] that fits the capacity leaves
    exactly the appended bytes in use, in the same buffer. *)
Theorem AlignedBuilder_reset_reuse (src : list byte) (s : t heap) :
  _size (_p s) <= sizeCap ->
  Z.of_nat (length src) <= _size (_p s) ->
  let s' := after_all' [Reset; AppendBuf src] s in
  contents s' = src /\ _len s' = Z.of_nat (length src) /\ _p s' = _p s
  /\ contents (snd (reset' s)) = [].
Proof.
  intros Hcap Hfit s'. subst s'.
  unfold AlignedBuilder.after_all. cbn [fold_left AlignedBuilder.after].
  assert (Hr : reset' s = (Ok tt, with_len 0 s)).
  { rewrite reset_unfold. by destruct (Z.ltb_spec sizeCap (_size (_p s))); [lia|]. }
  rewrite Hr. cbn [snd].
  assert (Hsz : _size (_p s) < 2 ^ 32) by (unfold sizeCap in Hcap; lia).
  rewrite appendBuf_fits by (cbn [with_len _len _p]; lia). cbn [snd].
  rewrite contents_put_at_end by (cbn [with_len _len]; lia).
  cbn [put_at_end with_memory with_len _len _p].
  repeat split; try done; lia.
Qed.

(** X13: an entry put in the buffer with [appendStruct], followed by its
    data with [appendBuf], lies there as the journal format has it: with
    room for both, the 12 bytes at the place of the entry are its fixed
    part and [srcData()] of that place is the address of the data. *)
Theorem AlignedBuilder_entry_then_data (e : JEntry.t) (data : list byte) (s : t heap) :
  0 <= _len s ->
  _len s + 12 + Z.of_nat (length data) <= _size (_p s) -> _size (_p s) < 2 ^ 32 ->
  let s' := after_all' [AppendStruct (JEntry.image e); AppendBuf data] s in
  let this := _data (_p s') + _len s in
  _len s' = _len s + 12 + Z.of_nat (length data)
  /\ _data (_p s') = _data (_p s)
  /\ load_bytes (the_memory s') this 12 = JEntry.image e
  /\ load_bytes (the_memory s') (JEntry.srcData this) (Z.of_nat (length data)) = data.
Proof.
  intros Hl Hfit Hsz s' this.
  assert (Hi : Z.of_nat (length (JEntry.image e)) = 12) by apply (JEntry_layout e).
  subst this s'. unfold AlignedBuilder.after_all.
  cbn [fold_left AlignedBuilder.after]. unfold appendStruct.
  assert (H1 : appendBuf' (JEntry.image e) s = (Ok tt, put_at_end (JEntry.image e) s))
    by (apply appendBuf_fits; lia).
  rewrite H1. cbn [snd].
  rewrite appendBuf_fits by (cbn [put_at_end with_memory with_len _len _p]; lia).
  cbn [snd put_at_end with_memory with_len _len _p the_memory].
  rewrite (srcData_after_image _ e), Hi.
  split; [lia|]. split; [done|]. split.
  - rewrite load_bytes_store_before by lia. rewrite <- Hi. apply load_store_bytes.
  - rewrite <- Z.add_assoc. apply load_store_bytes.
Qed.

End AlignedBuilderMore.

Lemma AlignedBuilder_skip_spec_witness :
  fst (AlignedBuilder.skip bump_malloc bump_free double_capacity 4 example_builder)
  = AlignedBuilder.Ok 0.
Proof.
  destruct (AlignedBuilder_skip_spec bump_malloc bump_free double_capacity example_builder 4)
    as (_ & H); [vm_compute; discriminate | lia | vm_compute; reflexivity |].
  destruct H as (H & _); [vm_compute; discriminate|]. by rewrite H.
Defined.

Lemma AlignedBuilder_appendBuf_sequence_witness :
  AlignedBuilder.contents
    (AlignedBuilder.after_all bump_malloc bump_free (16 * 1024 * 1024) double_capacity
       (map AlignedBuilder.AppendBuf [[Byte.x68; Byte.x69]; []; [Byte.x21]])
       example_builder)
  = [Byte.x68; Byte.x69; Byte.x21].
Proof.
  destruct (AlignedBuilder_appendBuf_sequence bump_malloc bump_free (16 * 1024 * 1024)
              double_capacity [[Byte.x68; Byte.x69]; []; [Byte.x21]] example_builder)
    as (_ & _ & _ & H & _);
    [vm_compute; discriminate | vm_compute; discriminate | vm_compute; reflexivity |].
  exact H.
Defined.

Lemma AlignedBuilder_appendNum_roundtrip_witness :
  le_combine
    (drop 0 (AlignedBuilder.contents
               (snd (AlignedBuilder.appendNum bump_malloc bump_free double_capacity
                       (AlignedBuilder.SInt 258) example_builder))))
  = 258.
Proof.
  destruct (AlignedBuilder_appendNum_roundtrip bump_malloc bump_free double_capacity
              (AlignedBuilder.SInt 258) example_builder)
    as (_ & _ & _ & _ & H);
    [vm_compute; discriminate | vm_compute; discriminate | vm_compute; reflexivity |].
  exact H.
Defined.

Lemma AlignedBuilder_skip_wraps_witness :
  AlignedBuilder._len
    (snd (AlignedBuilder.skip bump_malloc bump_free double_capacity 2
            (AlignedBuilder.Build 0 (fun _ => Byte.x00)
               {| AlignedBuilder._data := 8192;
                  AlignedBuilder._allocationAddress := 8192;
                  AlignedBuilder._size := 4294967295 |}
               4294967295)))
  < 4294967295.
Proof.
  apply (AlignedBuilder_skip_wraps bump_malloc bump_free double_capacity
           (AlignedBuilder.Build 0 (fun _ => Byte.x00)
              {| AlignedBuilder._data := 8192;
                 AlignedBuilder._allocationAddress := 8192;
                 AlignedBuilder._size := 4294967295 |}
              4294967295) 2);
    cbn [AlignedBuilder._len AlignedBuilder._size AlignedBuilder._p]; lia.
Defined.

Lemma AlignedBuilder_reset_reuse_witness :
  AlignedBuilder.contents
    (AlignedBuilder.after_all bump_malloc bump_free (16 * 1024 * 1024) double_capacity
       [AlignedBuilder.Reset; AlignedBuilder.AppendBuf [Byte.x68; Byte.x69]]
       (AlignedBuilder.after_all bump_malloc bump_free (16 * 1024 * 1024) double_capacity
          [AlignedBuilder.AppendBuf [Byte.x21; Byte.x21; Byte.x21]] example_builder))
  = [Byte.x68; Byte.x69].
Proof.
  destruct (AlignedBuilder_reset_reuse bump_malloc bump_free (16 * 1024 * 1024)
              double_capacity [Byte.x68; Byte.x69]
              (AlignedBuilder.after_all bump_malloc bump_free (16 * 1024 * 1024)
                 double_capacity
                 [AlignedBuilder.AppendBuf [Byte.x21; Byte.x21; Byte.x21]] example_builder))
    as (H & _); [vm_compute; discriminate | vm_compute; discriminate |].
  exact H.
Defined.

Lemma AlignedBuilder_entry_then_data_witness :
  let s := snd (AlignedBuilder.ctor bump_malloc 4097 (fun _ => Byte.x00) 64) in
  let e := JEntry.setFileNo 3 (JEntry.Build (little_set 5) (little_set 0) (little_set 0)) in
  let data := [Byte.x68; Byte.x65; Byte.x6c; Byte.x6c; Byte.x6f] in
  let s' := AlignedBuilder.after_all bump_malloc bump_free (16 * 1024 * 1024)
              double_capacity
              [AlignedBuilder.AppendStruct (JEntry.image e); AlignedBuilder.AppendBuf data] s in
  load_bytes (AlignedBuilder.the_memory s')
    (JEntry.srcData (AlignedBuilder._data (AlignedBuilder._p s') + AlignedBuilder._len s)) 5
  = data.
Proof.
  intros s e data s'.
  destruct (AlignedBuilder_entry_then_data bump_malloc bump_free (16 * 1024 * 1024)
              double_capacity e data s)
    as (_ & _ & _ & H);
    [vm_compute; discriminate | vm_compute; discriminate | vm_compute; reflexivity |].
  exact H.
Defined.
